(** * Sandbox pool manager of the execution service

    A shallow embedding of [execution_service/app/services/sandbox_pool.py],
    the language handlers under [services/language_handlers/] and the
    shutdown hook of [app/main.py], together with the properties of the
    design document that concern them.

    Conventions of the embedding.
    - A Python [dict] is an insertion-ordered association list with unique
      keys ([Dict]); iteration follows insertion order, as in Python.
    - A sandbox is an opaque handle; its mutable [metadata] attribute lives
      in a store indexed by the handle.
    - The sandbox provider (the e2b SDK) is an oracle: its answer to a call
      may depend on every call made before.  Each call also takes some time,
      which is what [asyncio.wait_for] measures against its deadline.
    - Every coroutine is a computation in the monad [M]: it threads the
      shared state of the process and either returns or raises.
    - [asyncio.create_task] appends to the list of scheduled tasks; a
      scheduled task runs when the event loop picks it ([run_next_task]).
      Coroutines are run one at a time, without interleaving at [await]. *)

From Stdlib Require Import List String Ascii ZArith Bool Lia Arith DecimalString.
Import ListNotations.
Open Scope string_scope.
Open Scope Z_scope.

Set Implicit Arguments.

(** ** Keys with a decidable equality *)

Class EqKey (K : Type) := {
  key_eqb : K -> K -> bool;
  key_eqb_spec : forall a b, reflect (a = b) (key_eqb a b)
}.

#[export] Instance EqKey_string : EqKey string :=
  {| key_eqb := String.eqb; key_eqb_spec := String.eqb_spec |}.

#[export] Instance EqKey_nat : EqKey nat :=
  {| key_eqb := Nat.eqb; key_eqb_spec := Nat.eqb_spec |}.

(** ** Python dictionaries (insertion ordered) *)

Module Dict.
Section Defs.
Context {K V : Type} `{EqKey K}.

Definition t := list (K * V).

(** [d.get(k)] *)
Fixpoint get (d : list (K * V)) (k : K) : option V :=
  match d with
  | [] => None
  | (k', v) :: rest => if key_eqb k k' then Some v else get rest k
  end.

(** [k in d] *)
Definition contains (d : list (K * V)) (k : K) : bool :=
  match get d k with Some _ => true | None => false end.

(** [d[k] = v]: an existing key keeps its position, a new key goes last. *)
Fixpoint set (d : list (K * V)) (k : K) (v : V) : list (K * V) :=
  match d with
  | [] => [(k, v)]
  | (k', v') :: rest =>
      if key_eqb k k' then (k', v) :: rest else (k', v') :: set rest k v
  end.

(** [d.pop(k, None)], the dictionary that is left. *)
Fixpoint pop (d : list (K * V)) (k : K) : list (K * V) :=
  match d with
  | [] => []
  | (k', v') :: rest =>
      if key_eqb k k' then rest else (k', v') :: pop rest k
  end.

Definition keys (d : list (K * V)) : list K := map fst d.
Definition values (d : list (K * V)) : list V := map snd d.
End Defs.
End Dict.

(** Truth value of a Python [str] and of an [Optional[str]]. *)
Definition truthy (s : string) : bool := negb (s =? "")%string.

Definition truthy_opt (o : option string) : bool :=
  match o with Some s => truthy s | None => false end.

(** [xs.remove(x)]: drops the first occurrence. *)
Fixpoint list_remove (x : string) (xs : list string) : list string :=
  match xs with
  | [] => []
  | y :: rest => if (x =? y)%string then rest else y :: list_remove x rest
  end.

Definition newline : string := String (ascii_of_nat 10) EmptyString.

(** ** Data model *)

Definition Sandbox := nat.
Definition Process := nat.

(** What [process.wait()] gives back. *)
Record ProcessOutput := {
  stdout : string;
  stderr : string;
  proc_exit_code : Z
}.

(** [app/models/execution.py] *)
Module ExecutionResult.
Record t := make {
  output : string;
  error : option string;
  exit_code : Z
}.
End ExecutionResult.

Module ExecutionRequest.
Record t := make {
  execution_id : string;
  user_id : string;
  code : string;
  language : string;
  timeout : Z;
  session_id : option string;
  files : option (list (string * string))
}.
End ExecutionRequest.

Module SessionRequest.
Record t := make {
  language : string;
  user_id : string
}.
End SessionRequest.

(** The dictionary [execute_code_in_sandbox] returns: the key
    ["session_id"] is present only for a request that carries one. *)
Module Response.
Record t := make {
  output : string;
  error : option string;
  exit_code : Z;
  session_id : option string
}.
End Response.

(** The dictionary returned by [create_session_with_sandbox]. *)
Module SessionInfo.
Record t := make {
  session_id : string;
  language : string;
  message : string
}.
End SessionInfo.

(** The dictionary stamped on [sandbox.metadata]. *)
Module Metadata.
Record t := make {
  language : option string;
  user_id : option string;
  created_at : option Z
}.
End Metadata.

(** [app/core/config.py] *)
Record Settings := {
  INITIAL_POOL_SIZE : Z;
  MAX_POOL_SIZE : Z;
  DEFAULT_TIMEOUT : Z;
  MAX_TIMEOUT : Z;
  SUPPORTED_LANGUAGES : list string
}.

Definition default_settings : Settings :=
  {| INITIAL_POOL_SIZE := 5;
     MAX_POOL_SIZE := 20;
     DEFAULT_TIMEOUT := 30;
     MAX_TIMEOUT := 300;
     SUPPORTED_LANGUAGES := ["python"; "node"; "bash"; "c"] |}.

(** ** Exceptions *)

Inductive Exn :=
| HTTPException (status_code : Z) (detail : string)
| TimeoutError                      (* asyncio.TimeoutError *)
| CancelledError                    (* a BaseException, not an Exception *)
| AttributeError (name : string)
| ProviderError (msg : string).     (* anything else the SDK raises *)

Definition is_Exception (e : Exn) : bool :=
  match e with CancelledError => false | _ => true end.

Definition is_TimeoutError (e : Exn) : bool :=
  match e with TimeoutError => true | _ => false end.

(** ** The sandbox provider *)

Inductive Call :=
| SandboxCreate                                           (* Sandbox.create() *)
| FilesystemWrite (sb : Sandbox) (path content : string)  (* sb.filesystem.write *)
| StartCommand (sb : Sandbox) (cmd : string)              (* sb.process.start_command *)
| StartPython (sb : Sandbox) (code : string)              (* sb.process.start_python *)
| ProcessWait (p : Process)                               (* process.wait() *)
| SandboxClose (sb : Sandbox).                            (* sb.close() *)

Definition answer (c : Call) : Type :=
  match c with
  | SandboxCreate => Sandbox
  | FilesystemWrite _ _ _ => unit
  | StartCommand _ _ => Process
  | StartPython _ _ => Process
  | ProcessWait _ => ProcessOutput
  | SandboxClose _ => unit
  end.

(** Everything the code reads from outside: the settings, the provider's
    answers and the time each call takes (both may depend on the calls made
    so far), the stream of [uuid.uuid4()] strings and the text [str(e)] of
    an [HTTPException], which the web framework defines. *)
Record Env := {
  settings : Settings;
  reply : list Call -> forall c : Call, Exn + answer c;
  latency : list Call -> Call -> Z;
  uuid4 : nat -> string;
  str_HTTPException : Z -> string -> string
}.

(** A scheduled [return_sandbox_to_pool(...)] coroutine. *)
Record Task := {
  task_sandbox_id : string;
  task_sandbox : Sandbox;
  task_language : string;
  task_reset : bool
}.

(** ** State of the process *)

Record Machine := {
  history : list Call;           (* provider calls so far, oldest first *)
  clock : Z;                     (* time.time() *)
  deadline : option Z;           (* set while inside asyncio.wait_for *)
  uuids : nat;                   (* uuid4() strings drawn so far *)
  available_sandboxes : list (string * list Sandbox);
  active_sandboxes : list (string * Sandbox);
  session_sandboxes : list (string * Sandbox);
  user_sessions : list (string * list string);
  metadata : list (Sandbox * Metadata.t);
  scheduled : list Task
}.

Definition initial_machine : Machine :=
  {| history := []; clock := 0; deadline := None; uuids := 0;
     available_sandboxes := []; active_sandboxes := [];
     session_sandboxes := []; user_sessions := [];
     metadata := []; scheduled := [] |}.

Definition with_world (h : list Call) (t : Z) (m : Machine) : Machine :=
  {| history := h; clock := t; deadline := deadline m; uuids := uuids m;
     available_sandboxes := available_sandboxes m;
     active_sandboxes := active_sandboxes m;
     session_sandboxes := session_sandboxes m;
     user_sessions := user_sessions m;
     metadata := metadata m; scheduled := scheduled m |}.

Definition with_deadline (d : option Z) (m : Machine) : Machine :=
  {| history := history m; clock := clock m; deadline := d; uuids := uuids m;
     available_sandboxes := available_sandboxes m;
     active_sandboxes := active_sandboxes m;
     session_sandboxes := session_sandboxes m;
     user_sessions := user_sessions m;
     metadata := metadata m; scheduled := scheduled m |}.

Definition with_uuids (n : nat) (m : Machine) : Machine :=
  {| history := history m; clock := clock m; deadline := deadline m; uuids := n;
     available_sandboxes := available_sandboxes m;
     active_sandboxes := active_sandboxes m;
     session_sandboxes := session_sandboxes m;
     user_sessions := user_sessions m;
     metadata := metadata m; scheduled := scheduled m |}.

Definition with_available (a : list (string * list Sandbox)) (m : Machine) : Machine :=
  {| history := history m; clock := clock m; deadline := deadline m;
     uuids := uuids m;
     available_sandboxes := a;
     active_sandboxes := active_sandboxes m;
     session_sandboxes := session_sandboxes m;
     user_sessions := user_sessions m;
     metadata := metadata m; scheduled := scheduled m |}.

Definition with_active (a : list (string * Sandbox)) (m : Machine) : Machine :=
  {| history := history m; clock := clock m; deadline := deadline m;
     uuids := uuids m;
     available_sandboxes := available_sandboxes m;
     active_sandboxes := a;
     session_sandboxes := session_sandboxes m;
     user_sessions := user_sessions m;
     metadata := metadata m; scheduled := scheduled m |}.

Definition with_sessions (s : list (string * Sandbox)) (m : Machine) : Machine :=
  {| history := history m; clock := clock m; deadline := deadline m;
     uuids := uuids m;
     available_sandboxes := available_sandboxes m;
     active_sandboxes := active_sandboxes m;
     session_sandboxes := s;
     user_sessions := user_sessions m;
     metadata := metadata m; scheduled := scheduled m |}.

Definition with_user_sessions (u : list (string * list string)) (m : Machine) : Machine :=
  {| history := history m; clock := clock m; deadline := deadline m;
     uuids := uuids m;
     available_sandboxes := available_sandboxes m;
     active_sandboxes := active_sandboxes m;
     session_sandboxes := session_sandboxes m;
     user_sessions := u;
     metadata := metadata m; scheduled := scheduled m |}.

Definition with_metadata (md : list (Sandbox * Metadata.t)) (m : Machine) : Machine :=
  {| history := history m; clock := clock m; deadline := deadline m;
     uuids := uuids m;
     available_sandboxes := available_sandboxes m;
     active_sandboxes := active_sandboxes m;
     session_sandboxes := session_sandboxes m;
     user_sessions := user_sessions m;
     metadata := md; scheduled := scheduled m |}.

Definition with_scheduled (ts : list Task) (m : Machine) : Machine :=
  {| history := history m; clock := clock m; deadline := deadline m;
     uuids := uuids m;
     available_sandboxes := available_sandboxes m;
     active_sandboxes := active_sandboxes m;
     session_sandboxes := session_sandboxes m;
     user_sessions := user_sessions m;
     metadata := metadata m; scheduled := ts |}.

(** ** The monad of coroutines *)

Definition M (A : Type) : Type := Machine -> (Exn + A) * Machine.

Definition ret {A} (a : A) : M A := fun m => (inr a, m).

Definition raise {A} (e : Exn) : M A := fun m => (inl e, m).

Definition bind {A B} (c : M A) (k : A -> M B) : M B :=
  fun m =>
    match c m with
    | (inr a, m') => k a m'
    | (inl e, m') => (inl e, m')
    end.

Declare Scope coroutine_scope.
Delimit Scope coroutine_scope with coroutine.

Notation "x <- c1 ;; c2" := (bind c1 (fun x => c2))
  (at level 61, c1 at next level, right associativity) : coroutine_scope.
Notation "c1 ;; c2" := (bind c1 (fun _ => c2))
  (at level 61, right associativity) : coroutine_scope.

Open Scope coroutine_scope.

Definition get_machine : M Machine := fun m => (inr m, m).

Definition modify (f : Machine -> Machine) : M unit := fun m => (inr tt, f m).

(** [try: body except Exception as e: handler(e)] *)
Definition try_except {A} (body : M A) (handler : Exn -> M A) : M A :=
  fun m =>
    match body m with
    | (inr a, m') => (inr a, m')
    | (inl e, m') => if is_Exception e then handler e m' else (inl e, m')
    end.

(** [for x in xs: await f(x)] *)
Fixpoint for_each {A} (xs : list A) (f : A -> M unit) : M unit :=
  match xs with
  | [] => ret tt
  | x :: rest => f x ;; for_each rest f
  end.

(** ** The service *)

Section Service.
Variable env : Env.

(** An [await] on the provider.  The call is recorded and its answer
    arrives [latency] later; when a deadline is armed and passes first,
    the coroutine is cancelled where it waits. *)
Definition await (c : Call) : M (answer c) :=
  fun m =>
    let h := history m in
    let t := clock m + latency env h c in
    match deadline m with
    | Some d =>
        if d <=? t
        then (inl CancelledError, with_world (h ++ [c]) (Z.max (clock m) d) m)
        else (reply env h c, with_world (h ++ [c]) t m)
    | None => (reply env h c, with_world (h ++ [c]) t m)
    end.

(** [asyncio.wait_for(body, timeout=timeout)].  With a timeout that is
    zero or negative the coroutine is cancelled before it starts and
    [TimeoutError] is raised at once.  Otherwise the body runs with the
    deadline armed [timeout] from now; a [CancelledError] that comes out of
    it becomes [TimeoutError] when the deadline has fired and is re-raised
    as it is otherwise. *)
Definition wait_for {A} (body : M A) (timeout : Z) : M A :=
  fun m =>
    if timeout <=? 0 then (inl TimeoutError, m)
    else
      let d := clock m + timeout in
      let '(r, m') := body (with_deadline (Some d) m) in
      let m'' := with_deadline (deadline m) m' in
      match r with
      | inl CancelledError =>
          if d <=? clock m' then (inl TimeoutError, m'')
          else (inl CancelledError, m'')
      | _ => (r, m'')
      end.

(** [str(uuid.uuid4())] *)
Definition uuid4_str : M string :=
  fun m => (inr (uuid4 env (uuids m)), with_uuids (S (uuids m)) m).

(** [time.time()] *)
Definition time_time : M Z := fun m => (inr (clock m), m).

(** [asyncio.create_task(return_sandbox_to_pool(...))] *)
Definition create_task (t : Task) : M unit :=
  modify (fun m => with_scheduled (scheduled m ++ [t]) m).

(** [str(e)] *)
Definition str_of_exn (e : Exn) : string :=
  match e with
  | HTTPException status_code detail => str_HTTPException env status_code detail
  | TimeoutError => ""
  | CancelledError => ""
  | AttributeError name => name
  | ProviderError msg => msg
  end.

(** *** Language handlers *)

(** [python_handler.py] *)
Definition execute_python (sandbox : Sandbox) (code : string)
  : M ExecutionResult.t :=
  process <- await (StartPython sandbox code) ;;
  result <- await (ProcessWait process) ;;
  ret (ExecutionResult.make (stdout result) (Some (stderr result))
         (proc_exit_code result)).

(** [node_handler.py] *)
Definition execute_node (sandbox : Sandbox) (code : string)
  : M ExecutionResult.t :=
  await (FilesystemWrite sandbox "/tmp/script.js" code) ;;
  process <- await (StartCommand sandbox "node /tmp/script.js") ;;
  result <- await (ProcessWait process) ;;
  ret (ExecutionResult.make (stdout result) (Some (stderr result))
         (proc_exit_code result)).

(** [bash_handler.py] *)
Definition execute_bash (sandbox : Sandbox) (code : string)
  : M ExecutionResult.t :=
  process <- await (StartCommand sandbox code) ;;
  result <- await (ProcessWait process) ;;
  ret (ExecutionResult.make (stdout result) (Some (stderr result))
         (proc_exit_code result)).

(** [c_handler.py] *)
Definition execute_c (sandbox : Sandbox) (code : string)
  : M ExecutionResult.t :=
  uuid <- uuid4_str ;;
  let file_id := substring 0 8 uuid in
  let source_file := "/tmp/program_" ++ file_id ++ ".c" in
  let executable := "/tmp/program_" ++ file_id in
  await (FilesystemWrite sandbox source_file code) ;;
  compile_process <-
    await (StartCommand sandbox ("gcc -o " ++ executable ++ " " ++ source_file)) ;;
  compile_result <- await (ProcessWait compile_process) ;;
  if negb (proc_exit_code compile_result =? 0)
  then
    ret (ExecutionResult.make ""
           (Some ("Compilation error:" ++ newline ++ stderr compile_result))
           (proc_exit_code compile_result))
  else
    run_process <- await (StartCommand sandbox executable) ;;
    run_result <- await (ProcessWait run_process) ;;
    ret (ExecutionResult.make (stdout run_result) (Some (stderr run_result))
           (proc_exit_code run_result)).

Inductive LanguageHandler :=
| PythonHandler | NodeHandler | BashHandler | CHandler.

(** [language_handler.execute(sandbox, code)] *)
Definition handler_execute (h : LanguageHandler)
  : Sandbox -> string -> M ExecutionResult.t :=
  match h with
  | PythonHandler => execute_python
  | NodeHandler => execute_node
  | BashHandler => execute_bash
  | CHandler => execute_c
  end.

(** [language_handlers/__init__.py] *)
Definition _language_handlers : list (string * LanguageHandler) :=
  [ ("python", PythonHandler);
    ("node", NodeHandler);
    ("javascript", NodeHandler);
    ("bash", BashHandler);
    ("shell", BashHandler);
    ("c", CHandler) ].

Definition get_language_handler (language : string) : M LanguageHandler :=
  match Dict.get _language_handlers language with
  | None => raise (HTTPException 400 ("Unsupported language: " ++ language))
  | Some h => ret h
  end.

(** *** [sandbox_pool.py] *)

Definition create_sandbox : M (option Sandbox) :=
  try_except
    (sandbox <- await SandboxCreate ;; ret (Some sandbox))
    (fun _ => ret None).

Definition reset_command : string := "rm -rf /tmp/* && rm -rf /home/user/*".

Definition reset_sandbox (sandbox : Sandbox) : M bool :=
  try_except
    (await (StartCommand sandbox reset_command) ;; ret true)
    (fun _ => ret false).

Definition manage_sandbox_pool (language : string) : M (option Sandbox) :=
  m <- get_machine ;;
  match Dict.get (available_sandboxes m) language with
  | Some (sandbox :: rest) =>
      (* available_sandboxes[language].pop(0) *)
      modify (with_available (Dict.set (available_sandboxes m) language rest)) ;;
      ret (Some sandbox)
  | _ => create_sandbox
  end.

(** [if language not in pool: pool[language] = []] followed by
    [pool[language].append(sandbox)]. *)
Definition pool_append (pool : list (string * list Sandbox))
    (language : string) (sandbox : Sandbox) : list (string * list Sandbox) :=
  let queue :=
    match Dict.get pool language with
    | Some q => q
    | None => []
    end in
  Dict.set pool language (queue ++ [sandbox])%list.

Definition append_available (language : string) (sandbox : Sandbox) : M unit :=
  modify (fun m =>
    with_available (pool_append (available_sandboxes m) language sandbox) m).

Definition return_sandbox_to_pool (sandbox_id : string) (sandbox : Sandbox)
    (language : string) (reset : bool) : M unit :=
  m <- get_machine ;;
  if Dict.contains (active_sandboxes m) sandbox_id
  then
    modify (with_active (Dict.pop (active_sandboxes m) sandbox_id)) ;;
    try_except
      ((if reset then (_ <- reset_sandbox sandbox ;; ret tt) else ret tt) ;;
       append_available language sandbox)
      (fun _ => await (SandboxClose sandbox))
  else ret tt.

(** [timeout = min(request.timeout, settings.MAX_TIMEOUT)] *)
Definition validated_timeout (request : ExecutionRequest.t) : Z :=
  Z.min (ExecutionRequest.timeout request) (MAX_TIMEOUT (settings env)).

(** The session sandbox chosen by
    [request.session_id and request.session_id in session_sandboxes]. *)
Definition session_binding (request : ExecutionRequest.t) (m : Machine)
  : option (Sandbox * string) :=
  match ExecutionRequest.session_id request with
  | Some sid =>
      if truthy sid
      then match Dict.get (session_sandboxes m) sid with
           | Some sandbox => Some (sandbox, sid)
           | None => None
           end
      else None
  | None => None
  end.

(** First half of [execute_code_in_sandbox]: the sandbox and the id
    under which the request runs. *)
Definition acquire_sandbox (request : ExecutionRequest.t)
  : M (Sandbox * string) :=
  m <- get_machine ;;
  match session_binding request m with
  | Some binding => ret binding
  | None =>
      sandbox <- manage_sandbox_pool (ExecutionRequest.language request) ;;
      match sandbox with
      | None => raise (HTTPException 503 "No sandbox available")
      | Some sandbox =>
          sandbox_id <- uuid4_str ;;
          modify (fun m => with_active
                    (Dict.set (active_sandboxes m) sandbox_id sandbox) m) ;;
          modify (fun m => with_metadata
                    (Dict.set (metadata m) sandbox
                       (Metadata.make
                          (Some (ExecutionRequest.language request)) None None)) m) ;;
          ret (sandbox, sandbox_id)
      end
  end.

(** The [try] block up to the handler's result: handler lookup, file
    staging, then the handler under the deadline. *)
Definition run_handler (request : ExecutionRequest.t) (sandbox : Sandbox)
    (timeout : Z) : M ExecutionResult.t :=
  language_handler <- get_language_handler (ExecutionRequest.language request) ;;
  match ExecutionRequest.files request with
  | Some files =>
      for_each files
        (fun '(file_path, file_content) =>
           await (FilesystemWrite sandbox file_path file_content))
  | None => ret tt
  end ;;
  _ <- time_time ;;
  wait_for (handler_execute language_handler sandbox
              (ExecutionRequest.code request)) timeout.

(** [if not request.session_id: asyncio.create_task(return_sandbox_to_pool(...))] *)
Definition schedule_return (request : ExecutionRequest.t)
    (sandbox_id : string) (sandbox : Sandbox) : M unit :=
  if truthy_opt (ExecutionRequest.session_id request)
  then ret tt
  else create_task
         {| task_sandbox_id := sandbox_id;
            task_sandbox := sandbox;
            task_language := ExecutionRequest.language request;
            task_reset := true |}.

Definition execute_code_in_sandbox (request : ExecutionRequest.t)
  : M Response.t :=
  let timeout := validated_timeout request in
  binding <- acquire_sandbox request ;;
  let '(sandbox, sandbox_id) := binding in
  fun m =>
    match
      (result <- run_handler request sandbox timeout ;;
       schedule_return request sandbox_id sandbox ;;
       ret (Response.make
              (ExecutionResult.output result)
              (ExecutionResult.error result)
              (ExecutionResult.exit_code result)
              (if truthy_opt (ExecutionRequest.session_id request)
               then ExecutionRequest.session_id request else None))) m
    with
    | (inr response, m') => (inr response, m')
    | (inl e, m') =>
        if is_TimeoutError e then
          (* except asyncio.TimeoutError *)
          (schedule_return request sandbox_id sandbox ;;
           ret (Response.make "" (Some "Execution timed out") (-1) None)) m'
        else if is_Exception e then
          (* except Exception as e *)
          (schedule_return request sandbox_id sandbox ;;
           ret (Response.make "" (Some (str_of_exn e)) (-1) None)) m'
        else (inl e, m')
    end.

Definition create_session_with_sandbox (request : SessionRequest.t)
  : M SessionInfo.t :=
  sandbox <- manage_sandbox_pool (SessionRequest.language request) ;;
  match sandbox with
  | None => raise (HTTPException 503 "No sandbox available")
  | Some sandbox =>
      session_id <- uuid4_str ;;
      modify (fun m => with_sessions
                (Dict.set (session_sandboxes m) session_id sandbox) m) ;;
      modify (fun m =>
        let user_id := SessionRequest.user_id request in
        let sessions :=
          match Dict.get (user_sessions m) user_id with
          | Some l => l
          | None => []
          end in
        with_user_sessions
          (Dict.set (user_sessions m) user_id (sessions ++ [session_id])%list) m) ;;
      now <- time_time ;;
      modify (fun m => with_metadata
                (Dict.set (metadata m) sandbox
                   (Metadata.make (Some (SessionRequest.language request))
                      (Some (SessionRequest.user_id request)) (Some now))) m) ;;
      ret (SessionInfo.make session_id (SessionRequest.language request)
             "Session created successfully")
  end.

(** [sandbox.metadata]; the attribute exists once the pool has stamped it. *)
Definition sandbox_metadata (sandbox : Sandbox) : M Metadata.t :=
  m <- get_machine ;;
  match Dict.get (metadata m) sandbox with
  | Some md => ret md
  | None => raise (AttributeError "metadata")
  end.

Definition end_session_and_return_sandbox (session_id : string)
  : M (bool * string) :=
  m <- get_machine ;;
  match Dict.get (session_sandboxes m) session_id with
  | None => raise (HTTPException 404 "Session not found")
  | Some sandbox =>
      modify (with_sessions (Dict.pop (session_sandboxes m) session_id)) ;;
      md <- sandbox_metadata sandbox ;;
      let language :=
        match Metadata.language md with Some l => l | None => "python" end in
      let user_id := Metadata.user_id md in
      modify (fun m =>
        match user_id with
        | Some user_id =>
            if truthy user_id then
              match Dict.get (user_sessions m) user_id with
              | Some sessions =>
                  (* remove() drops the first occurrence, if there is one *)
                  with_user_sessions
                    (Dict.set (user_sessions m) user_id
                       (list_remove session_id sessions)) m
              | None => m
              end
            else m
        | None => m
        end) ;;
      try_except
        (_ <- reset_sandbox sandbox ;;
         append_available language sandbox)
        (fun _ => await (SandboxClose sandbox)) ;;
      ret (true, "Session ended successfully")
  end.

(** The inner loop of [initialize_sandbox_pool]:
    [for _ in range(n): sandbox = await create_sandbox(); ...] *)
Fixpoint prewarm (n : nat) (language : string)
    (pool : list (string * list Sandbox)) : M (list (string * list Sandbox)) :=
  match n with
  | O => ret pool
  | S n' =>
      sandbox <- create_sandbox ;;
      match sandbox with
      | Some sandbox => prewarm n' language (pool_append pool language sandbox)
      | None => prewarm n' language pool
      end
  end.

Fixpoint prewarm_all (n : nat) (languages : list string)
    (pool : list (string * list Sandbox)) : M (list (string * list Sandbox)) :=
  match languages with
  | [] => ret pool
  | language :: rest =>
      pool' <- prewarm n language pool ;;
      prewarm_all n rest pool'
  end.

Definition initialize_sandbox_pool : M (list (string * list Sandbox)) :=
  let languages := SUPPORTED_LANGUAGES (settings env) in
  let available :=
    fold_left (fun d lang => Dict.set d lang ([] : list Sandbox)) languages [] in
  prewarm_all
    (Z.to_nat (INITIAL_POOL_SIZE (settings env) / Z.of_nat (List.length languages)))
    languages available.

(** [startup_event] of [main.py] *)
Definition startup_event : M unit :=
  pool <- initialize_sandbox_pool ;;
  modify (with_available pool).

Definition cleanup_sandboxes : M unit :=
  m <- get_machine ;;
  for_each (Dict.keys (available_sandboxes m)) (fun language =>
    match Dict.get (available_sandboxes m) language with
    | Some queue => for_each queue (fun sandbox => await (SandboxClose sandbox))
    | None => ret tt
    end) ;;
  for_each (Dict.keys (active_sandboxes m)) (fun sandbox_id =>
    match Dict.get (active_sandboxes m) sandbox_id with
    | Some sandbox => await (SandboxClose sandbox)
    | None => ret tt
    end) ;;
  for_each (Dict.keys (session_sandboxes m)) (fun session_id =>
    match Dict.get (session_sandboxes m) session_id with
    | Some sandbox => await (SandboxClose sandbox)
    | None => ret tt
    end).

(** [shutdown_event] of [main.py] *)
Definition shutdown_event : M unit := cleanup_sandboxes.

(** The event loop runs the task scheduled first. *)
Definition run_next_task : M unit :=
  m <- get_machine ;;
  match scheduled m with
  | [] => ret tt
  | t :: rest =>
      modify (with_scheduled rest) ;;
      return_sandbox_to_pool (task_sandbox_id t) (task_sandbox t)
        (task_language t) (task_reset t)
  end.

(** *** Sequences of operations *)

Inductive Op :=
| Execute (request : ExecutionRequest.t)
| CreateSession (request : SessionRequest.t)
| EndSession (session_id : string)
| RunTask
| Shutdown.

(** One operation; an exception that escapes becomes an HTTP error
    response and the process carries on in the state reached. *)
Definition step (op : Op) (m : Machine) : Machine :=
  match op with
  | Execute request => snd (execute_code_in_sandbox request m)
  | CreateSession request => snd (create_session_with_sandbox request m)
  | EndSession session_id => snd (end_session_and_return_sandbox session_id m)
  | RunTask => snd (run_next_task m)
  | Shutdown => snd (shutdown_event m)
  end.

Definition serve (ops : list Op) (m : Machine) : Machine :=
  fold_left (fun m op => step op m) ops m.

(** Sandboxes created minus sandboxes closed, read off the provider's
    log: a call counts when the provider answered it without raising.
    (Creating and closing never happen under a deadline, so every such
    call in the log did receive its answer.) *)
Fixpoint created_minus_closed (before calls : list Call) : Z :=
  match calls with
  | [] => 0
  | c :: rest =>
      (match c, reply env before c with
       | SandboxCreate, inr _ => 1
       | SandboxClose _, inr _ => -1
       | _, _ => 0
       end) + created_minus_closed (before ++ [c])%list rest
  end.

Definition live_count (m : Machine) : Z := created_minus_closed [] (history m).

(** Every sandbox the process holds, in the order shutdown visits them. *)
Definition held_sandboxes (m : Machine) : list Sandbox :=
  (List.concat (Dict.values (available_sandboxes m))
   ++ Dict.values (active_sandboxes m)
   ++ Dict.values (session_sandboxes m))%list.

(** The sandboxes closed by a run of provider calls. *)
Definition closed_in (calls : list Call) : list Sandbox :=
  flat_map (fun c => match c with SandboxClose sb => [sb] | _ => [] end) calls.

(** *** What the pool hands out *)

(** The idle queue of a language; a language without an entry has none. *)
Definition queue (language : string) (m : Machine) : list Sandbox :=
  match Dict.get (available_sandboxes m) language with
  | Some q => q
  | None => []
  end.

(** The sandbox an operation obtains from [manage_sandbox_pool], with the
    language it asked for.  [execute_code_in_sandbox] asks unless the
    request resolves to a session, [create_session_with_sandbox] always
    asks, and both ask first thing, in the state the operation starts in. *)
Definition checkout_of (op : Op) (m : Machine) : option (string * Sandbox) :=
  let ask language :=
    match fst (manage_sandbox_pool language m) with
    | inr (Some sandbox) => Some (language, sandbox)
    | _ => None
    end in
  match op with
  | Execute request =>
      match session_binding request m with
      | Some _ => None
      | None => ask (ExecutionRequest.language request)
      end
  | CreateSession request => ask (SessionRequest.language request)
  | _ => None
  end.

(** The sandboxes handed out for [language] while [ops] run, in order. *)
Fixpoint handed_out (language : string) (ops : list Op) (m : Machine)
  : list Sandbox :=
  match ops with
  | [] => []
  | op :: rest =>
      match checkout_of op m with
      | Some (l, sandbox) =>
          if (l =? language)%string
          then sandbox :: handed_out language rest (step op m)
          else handed_out language rest (step op m)
      | None => handed_out language rest (step op m)
      end
  end.

End Service.

(** ** Views of the state, for framing *)

(** The shared structures of the pool manager. *)
Definition pool_state (m : Machine) :=
  (available_sandboxes m, active_sandboxes m, session_sandboxes m,
   user_sessions m, metadata m, scheduled m).

(** The sandboxes closed so far. *)
Definition closes (m : Machine) : list Sandbox := closed_in (history m).

Definition is_close (c : Call) : bool :=
  match c with SandboxClose _ => true | _ => false end.

(** A coroutine keeps a view when running it leaves the view as it was. *)
Definition keeps {X A} (view : Machine -> X) (c : M A) : Prop :=
  forall m, view (snd (c m)) = view m.

(** A view is quiet when it sees neither the clock, the deadline, the uuid
    counter nor any provider call other than [close]. *)
Record quiet {X} (view : Machine -> X) : Prop := {
  quiet_call : forall c t m, is_close c = false ->
      view (with_world (history m ++ [c]) t m) = view m;
  quiet_deadline : forall d m, view (with_deadline d m) = view m;
  quiet_uuids : forall n m, view (with_uuids n m) = view m
}.


(** A Python dictionary has each key once. *)
Definition well_formed {K V} (d : list (K * V)) : Prop := NoDup (Dict.keys d).

(** ** The design document's reading of the timeout *)

(** Clamping to the closed interval [[1, MAX_TIMEOUT]], in the words of the
    design document; to be compared with [validated_timeout]. *)
Definition spec_clamped_timeout (env : Env) (request : ExecutionRequest.t) : Z :=
  Z.max 1 (Z.min (ExecutionRequest.timeout request) (MAX_TIMEOUT (settings env))).

(** ** Concrete environments and requests used in the examples *)

Module Examples.

Definition count_creates (h : list Call) : nat :=
  List.length (filter (fun c => match c with SandboxCreate => true | _ => false end) h).

(** A provider that never fails: sandboxes are numbered in creation
    order, processes by the position of the call that started them, and
    every process prints [out], [err] and exits with [code]. *)
Definition steady_provider (out err : string) (code : Z)
  : list Call -> forall c : Call, Exn + answer c :=
  fun h c =>
    match c return Exn + answer c with
    | SandboxCreate => inr (count_creates h)
    | FilesystemWrite _ _ _ => inr tt
    | StartCommand _ _ => inr (List.length h)
    | StartPython _ _ => inr (List.length h)
    | ProcessWait _ => inr {| stdout := out; stderr := err; proc_exit_code := code |}
    | SandboxClose _ => inr tt
    end.

(** The same provider, except that the reset command cannot be started. *)
Definition reset_failing_provider
  : list Call -> forall c : Call, Exn + answer c :=
  fun h c =>
    match c return Exn + answer c with
    | StartCommand sb cmd =>
        if (cmd =? "rm -rf /tmp/* && rm -rf /home/user/*")%string
        then inl (ProviderError "sandbox disconnected")
        else inr (List.length h)
    | c' => steady_provider "" "" 0 h c'
    end.

Definition uuid_stream (n : nat) : string :=
  String (ascii_of_nat (97 + n)) "b4e28ba-2fa1-41d2-883f-0016d3cca427".

Definition str_status_detail (status_code : Z) (detail : string) : string :=
  (NilZero.string_of_int (Z.to_int status_code) ++ ": " ++ detail)%string.

Definition with_max_pool (n : Z) (s : Settings) : Settings :=
  {| INITIAL_POOL_SIZE := INITIAL_POOL_SIZE s;
     MAX_POOL_SIZE := n;
     DEFAULT_TIMEOUT := DEFAULT_TIMEOUT s;
     MAX_TIMEOUT := MAX_TIMEOUT s;
     SUPPORTED_LANGUAGES := SUPPORTED_LANGUAGES s |}.

(** Default settings, a provider that answers at once and never fails. *)
Definition steady_env : Env :=
  {| settings := default_settings;
     reply := steady_provider "2" "" 0;
     latency := fun _ _ => 0;
     uuid4 := uuid_stream;
     str_HTTPException := str_status_detail |}.

(** [MAX_POOL_SIZE = 1] *)
Definition single_slot_env : Env :=
  {| settings := with_max_pool 1 default_settings;
     reply := steady_provider "2" "" 0;
     latency := fun _ _ => 0;
     uuid4 := uuid_stream;
     str_HTTPException := str_status_detail |}.

Definition reset_failing_env : Env :=
  {| settings := default_settings;
     reply := reset_failing_provider;
     latency := fun _ _ => 0;
     uuid4 := uuid_stream;
     str_HTTPException := str_status_detail |}.

(** Every process takes 100 seconds to finish. *)
Definition slow_env : Env :=
  {| settings := default_settings;
     reply := steady_provider "" "" 0;
     latency := fun _ c => match c with ProcessWait _ => 100 | _ => 0 end;
     uuid4 := uuid_stream;
     str_HTTPException := str_status_detail |}.

(** The compiler rejects the program. *)
Definition compile_error_env : Env :=
  {| settings := default_settings;
     reply := steady_provider "" "error: 'x' undeclared" 1;
     latency := fun _ _ => 0;
     uuid4 := uuid_stream;
     str_HTTPException := str_status_detail |}.

Definition request (code language : string) (timeout : Z)
    (session_id : option string) : ExecutionRequest.t :=
  ExecutionRequest.make "exec-1" "alice" code language timeout session_id None.

(** A process holding one session ["s1"] of user ["alice"] on sandbox 0. *)
Definition one_session : Machine :=
  with_metadata
    [(0%nat, Metadata.make (Some "python") (Some "alice") (Some 0))]
    (with_user_sessions [("alice", ["s1"])]
       (with_sessions [("s1", 0%nat)]
          (with_world [SandboxCreate] 0 initial_machine))).

(** A process with two idle python sandboxes, 0 released before 1, and
    one sandbox held by each of the other two containers. *)
Definition warm_pool : Machine :=
  with_active [("e1", 2%nat)]
    (with_sessions [("s1", 3%nat)]
       (with_available [("python", [0%nat; 1%nat])]
          (with_world [SandboxCreate; SandboxCreate; SandboxCreate; SandboxCreate]
             0 initial_machine))).

(** An in-flight ephemeral execution on sandbox 7 under id ["e1"]. *)
Definition one_active : Machine :=
  with_active [("e1", 7%nat)] initial_machine.

End Examples.

(** ** [app/core/security.py] and the endpoints of [app/main.py] *)

(** [validate_internal_token(token)]; [secret] is
    [settings.INTERNAL_AUTH_TOKEN] and [token] the [Internal-Auth-Token]
    header, [None] when the request carries none. *)
Definition validate_internal_token (secret : string) (token : option string)
  : Exn + bool :=
  match token with
  | None => inl (HTTPException 403 "No authentication token provided")
  | Some t =>
      if negb (truthy t)
      then inl (HTTPException 403 "No authentication token provided")
      else if negb (t =? secret)%string
      then inl (HTTPException 403 "Invalid authentication token")
      else inr true
  end.

(** A synchronous call inside a coroutine. *)
Definition call {A} (r : Exn + A) : M A := fun m => (r, m).

Section Endpoints.
Variable env : Env.
Variable INTERNAL_AUTH_TOKEN : string.

(** [POST /execute] *)
Definition execute_code (request : ExecutionRequest.t)
    (internal_auth_token : option string) : M Response.t :=
  call (validate_internal_token INTERNAL_AUTH_TOKEN internal_auth_token) ;;
  execute_code_in_sandbox env request.

(** [POST /sessions] *)
Definition create_session (request : SessionRequest.t)
    (internal_auth_token : option string) : M SessionInfo.t :=
  call (validate_internal_token INTERNAL_AUTH_TOKEN internal_auth_token) ;;
  create_session_with_sandbox env request.

(** [DELETE /sessions/{session_id}] *)
Definition end_session (session_id : string)
    (internal_auth_token : option string) : M (bool * string) :=
  call (validate_internal_token INTERNAL_AUTH_TOKEN internal_auth_token) ;;
  end_session_and_return_sandbox env session_id.

End Endpoints.

(** ** Assumptions on the provider, and a few shorthands *)

(** The provider raises ordinary exceptions only (never a
    [CancelledError] of its own). *)
Definition polite (env : Env) : Prop :=
  forall h c e, reply env h c = inl e -> is_Exception e = true.

(** The provider never fails to create a sandbox. *)
Definition always_creates (env : Env) : Prop :=
  forall h, exists sandbox, reply env h SandboxCreate = inr sandbox.

(** The write that stages one file of a request. *)
Definition stage_call (sandbox : Sandbox) (file : string * string) : Call :=
  FilesystemWrite sandbox (fst file) (snd file).

(** The return scheduled for an ephemeral execution. *)
Definition return_task (request : ExecutionRequest.t) (sandbox_id : string)
    (sandbox : Sandbox) : Task :=
  {| task_sandbox_id := sandbox_id;
     task_sandbox := sandbox;
     task_language := ExecutionRequest.language request;
     task_reset := true |}.

(** Number of idle sandboxes over all languages. *)
Definition pool_size (pool : list (string * list Sandbox)) : nat :=
  List.length (List.concat (Dict.values pool)).

(** Sandboxes per language at start-up:
    [INITIAL_POOL_SIZE // len(SUPPORTED_LANGUAGES)]. *)
Definition per_language (s : Settings) : nat :=
  Z.to_nat (INITIAL_POOL_SIZE s / Z.of_nat (List.length (SUPPORTED_LANGUAGES s))).

Module MoreExamples.

(** The provider cannot create sandboxes. *)
Definition no_sandbox_provider
  : list Call -> forall c : Call, Exn + answer c :=
  fun h c =>
    match c return Exn + answer c with
    | SandboxCreate => inl (ProviderError "quota exceeded")
    | c' => Examples.steady_provider "" "" 0 h c'
    end.

Definition no_sandbox_env : Env :=
  {| settings := default_settings;
     reply := no_sandbox_provider;
     latency := fun _ _ => 0;
     uuid4 := Examples.uuid_stream;
     str_HTTPException := Examples.str_status_detail |}.



(** Writing the file ["/tmp/b.txt"] fails. *)
Definition write_failing_provider
  : list Call -> forall c : Call, Exn + answer c :=
  fun h c =>
    match c return Exn + answer c with
    | FilesystemWrite sb path content =>
        if (path =? "/tmp/b.txt")%string
        then inl (ProviderError "disk full")
        else inr tt
    | c' => Examples.steady_provider "" "" 0 h c'
    end.

Definition write_failing_env : Env :=
  {| settings := default_settings;
     reply := write_failing_provider;
     latency := fun _ _ => 0;
     uuid4 := Examples.uuid_stream;
     str_HTTPException := Examples.str_status_detail |}.

Definition request_with_files (files : list (string * string))
  : ExecutionRequest.t :=
  ExecutionRequest.make "exec-2" "alice" "cat /tmp/a.txt" "bash" 10 None
    (Some files).

Definition secret : string := "development-token-replace-in-production".

End MoreExamples.

(** ** Deadlines *)

(** A coroutine lets a [CancelledError] out only when the deadline it runs
    under has fired; it leaves the deadline armed as it found it. *)
Definition cancelled_by_deadline {A} (c : M A) : Prop :=
  forall d m r m',
    deadline m = Some d -> c m = (r, m') ->
    deadline m' = Some d /\ (r = inl CancelledError -> d <= clock m').

(** The same request with another [timeout]. *)
Definition with_timeout (t : Z) (request : ExecutionRequest.t)
  : ExecutionRequest.t :=
  ExecutionRequest.make
    (ExecutionRequest.execution_id request)
    (ExecutionRequest.user_id request)
    (ExecutionRequest.code request)
    (ExecutionRequest.language request)
    t
    (ExecutionRequest.session_id request)
    (ExecutionRequest.files request).

(** The file-staging loop of a request. *)
Definition stage_files (env : Env) (request : ExecutionRequest.t)
    (sandbox : Sandbox) : M unit :=
  match ExecutionRequest.files request with
  | Some files =>
      for_each files
        (fun '(file_path, file_content) =>
           await env (FilesystemWrite sandbox file_path file_content))
  | None => ret tt
  end.

(** What the coordinator answers once the awaited handler has returned or
    raised [outcome], leaving the state [m]. *)
Definition answer_of (env : Env) (request : ExecutionRequest.t)
    (sandbox_id : string) (sandbox : Sandbox)
    (outcome : Exn + ExecutionResult.t) (m : Machine)
  : (Exn + Response.t) * Machine :=
  match outcome with
  | inr result =>
      (inr (Response.make (ExecutionResult.output result)
              (ExecutionResult.error result)
              (ExecutionResult.exit_code result)
              (if truthy_opt (ExecutionRequest.session_id request)
               then ExecutionRequest.session_id request else None)),
       snd (schedule_return request sandbox_id sandbox m))
  | inl e =>
      if is_TimeoutError e then
        (inr (Response.make "" (Some "Execution timed out") (-1) None),
         snd (schedule_return request sandbox_id sandbox m))
      else if is_Exception e then
        (inr (Response.make "" (Some (str_of_exn env e)) (-1) None),
         snd (schedule_return request sandbox_id sandbox m))
      else (inl e, m)
  end.

Module DeadlineExamples.

(** Every process takes 400 seconds to finish. *)
Definition long_running_env : Env :=
  {| settings := default_settings;
     reply := Examples.steady_provider "done" "" 0;
     latency := fun _ c => match c with ProcessWait _ => 400 | _ => 0 end;
     uuid4 := Examples.uuid_stream;
     str_HTTPException := Examples.str_status_detail |}.

End DeadlineExamples.

(** * Properties *)

(** ** Dictionaries *)

Section DictFacts.
Context {K V : Type} `{EqKey K}.

Lemma key_eqb_refl (k : K) : key_eqb k k = true.
Proof. destruct (key_eqb_spec k k); congruence. Qed.

Lemma key_eqb_neq (k k' : K) : k <> k' -> key_eqb k k' = false.
Proof. intro Hne. destruct (key_eqb_spec k k'); congruence. Qed.

Lemma get_set_same (d : list (K * V)) k v :
  Dict.get (Dict.set d k v) k = Some v.
Proof.
  induction d as [|[k' v'] d IH]; simpl.
  - now rewrite key_eqb_refl.
  - destruct (key_eqb_spec k k') as [->|Hne]; simpl.
    + now rewrite key_eqb_refl.
    + now rewrite (key_eqb_neq Hne).
Qed.

Lemma get_set_other (d : list (K * V)) k k' v :
  k <> k' -> Dict.get (Dict.set d k v) k' = Dict.get d k'.
Proof.
  intro Hne. induction d as [|[k0 v0] d IH]; simpl.
  - rewrite key_eqb_neq; auto.
  - destruct (key_eqb_spec k k0) as [->|Hk]; simpl.
    + rewrite key_eqb_neq; auto.
    + now rewrite IH.
Qed.
End DictFacts.

(** ** The monad *)

Section Framing.
Context {X : Type} (view : Machine -> X).

Lemma keeps_ret {A} (a : A) : keeps view (ret a).
Proof. intro m. reflexivity. Qed.

Lemma keeps_raise {A} (e : Exn) : keeps view (@raise A e).
Proof. intro m. reflexivity. Qed.

Lemma keeps_get_machine : keeps view get_machine.
Proof. intro m. reflexivity. Qed.

Lemma keeps_bind {A B} (c : M A) (k : A -> M B) :
  keeps view c -> (forall a, keeps view (k a)) -> keeps view (bind c k).
Proof.
  intros Hc Hk m. unfold bind. specialize (Hc m).
  destruct (c m) as [[e|a] m']; simpl in *; [assumption|].
  now rewrite Hk.
Qed.

Lemma keeps_try_except {A} (body : M A) (handler : Exn -> M A) :
  keeps view body -> (forall e, keeps view (handler e)) ->
  keeps view (try_except body handler).
Proof.
  intros Hb Hh m. unfold try_except. specialize (Hb m).
  destruct (body m) as [[e|a] m']; simpl in *; [|assumption].
  destruct (is_Exception e); simpl; [now rewrite Hh | assumption].
Qed.

Lemma keeps_for_each {A} (xs : list A) (f : A -> M unit) :
  (forall x, keeps view (f x)) -> keeps view (for_each xs f).
Proof.
  intro Hf. induction xs as [|x xs IH]; simpl.
  - apply keeps_ret.
  - apply keeps_bind; auto.
Qed.

Lemma keeps_modify (g : Machine -> Machine) :
  (forall m, view (g m) = view m) -> keeps view (modify g).
Proof. intros Hg m. apply Hg. Qed.

Lemma keeps_time_time : keeps view time_time.
Proof. intro m. reflexivity. Qed.

Variable env : Env.
Hypothesis Hquiet : quiet view.

Lemma keeps_await (c : Call) : is_close c = false -> keeps view (await env c).
Proof.
  intros Hc m. unfold await.
  destruct (deadline m) as [d|]; [destruct (d <=? _)|]; simpl;
    now apply (quiet_call Hquiet).
Qed.

Lemma keeps_uuid4_str : keeps view (uuid4_str env).
Proof. intro m. apply (quiet_uuids Hquiet). Qed.

Lemma keeps_wait_for {A} (body : M A) (timeout : Z) :
  keeps view body -> keeps view (wait_for body timeout).
Proof.
  intros Hb m. unfold wait_for.
  destruct (timeout <=? 0); [reflexivity|].
  specialize (Hb (with_deadline (Some (clock m + timeout)) m)).
  destruct (body _) as [r m']; simpl in Hb.
  assert (Hm : view (with_deadline (deadline m) m') = view m).
  { rewrite (quiet_deadline Hquiet), Hb. apply (quiet_deadline Hquiet). }
  destruct r as [[]|]; simpl; try exact Hm.
  destruct (_ <=? _); exact Hm.
Qed.
End Framing.

Create HintDb frame.

#[local] Hint Resolve keeps_ret keeps_raise keeps_get_machine keeps_time_time
  keeps_uuid4_str keeps_modify : frame.

(** Walks down a coroutine built from binds, awaits and conditionals. *)
Ltac frame :=
  repeat first
    [ solve [auto with frame]
    | match goal with
      | Hq : quiet ?v |- keeps ?v (await ?e ?c) =>
          exact (@keeps_await _ v e Hq c eq_refl)
      end
    | apply keeps_bind; [|intro]
    | apply keeps_try_except; [|intro]
    | apply keeps_for_each; intro
    | apply keeps_wait_for; [assumption|]
    | match goal with
      | |- keeps _ (if ?b then _ else _) => destruct b
      | |- keeps _ (match ?x with _ => _ end) => destruct x
      end ].

(** ** Language handlers *)

Section HandlerFacts.
Variable env : Env.
Context {X : Type} (view : Machine -> X).
Hypothesis Hquiet : quiet view.

Lemma keeps_execute_python sandbox code :
  keeps view (execute_python env sandbox code).
Proof. unfold execute_python. frame. Qed.

Lemma keeps_execute_node sandbox code :
  keeps view (execute_node env sandbox code).
Proof. unfold execute_node. frame. Qed.

Lemma keeps_execute_bash sandbox code :
  keeps view (execute_bash env sandbox code).
Proof. unfold execute_bash. frame. Qed.

Lemma keeps_execute_c sandbox code :
  keeps view (execute_c env sandbox code).
Proof. unfold execute_c. frame. Qed.

Lemma keeps_handler_execute h sandbox code :
  keeps view (handler_execute env h sandbox code).
Proof.
  destruct h; simpl;
    auto using keeps_execute_python, keeps_execute_node,
      keeps_execute_bash, keeps_execute_c.
Qed.

Lemma keeps_get_language_handler language :
  keeps view (get_language_handler language).
Proof. unfold get_language_handler. frame. Qed.

(** Looking up the handler, staging the files and running the handler
    under its deadline touch nothing but the provider. *)
Lemma keeps_run_handler request sandbox timeout :
  keeps view (run_handler env request sandbox timeout).
Proof.
  unfold run_handler.
  apply keeps_bind; [apply keeps_get_language_handler | intro h].
  apply keeps_bind.
  - destruct (ExecutionRequest.files request); frame.
  - intros _. apply keeps_bind; [frame | intros _].
    apply keeps_wait_for; [assumption | apply keeps_handler_execute].
Qed.
End HandlerFacts.

Lemma quiet_pool_state : quiet pool_state.
Proof. split; intros; reflexivity. Qed.

Lemma closed_in_app (xs ys : list Call) :
  closed_in (xs ++ ys) = (closed_in xs ++ closed_in ys)%list.
Proof. unfold closed_in. now rewrite flat_map_app. Qed.

Lemma quiet_closes : quiet closes.
Proof.
  split; intros; try reflexivity.
  unfold closes; simpl. rewrite closed_in_app.
  destruct c; simpl in *; try discriminate; now rewrite app_nil_r.
Qed.

(** C9.  When the compiler exits with a non-zero code, [execute_c] returns
    an empty [output], an [error] made of the marker ["Compilation error:"],
    a line break and the compiler's stderr, and the compiler's [exit_code];
    the only provider calls it makes are the write of the source file, the
    start of [gcc] and the wait for it, so the executable is never started. *)
Theorem compile_failure_reported
    (env : Env) (sandbox : Sandbox) (code : string)
    (m m1 m2 m3 : Machine) (compile_process : Process)
    (compile_result : ProcessOutput) :
  let file_id := substring 0 8 (uuid4 env (uuids m)) in
  let source_file := "/tmp/program_" ++ file_id ++ ".c" in
  let executable := "/tmp/program_" ++ file_id in
  let write := FilesystemWrite sandbox source_file code in
  let gcc := StartCommand sandbox ("gcc -o " ++ executable ++ " " ++ source_file) in
  await env write (with_uuids (S (uuids m)) m) = (inr tt, m1) ->
  await env gcc m1 = (inr compile_process, m2) ->
  await env (ProcessWait compile_process) m2 = (inr compile_result, m3) ->
  proc_exit_code compile_result <> 0 ->
  exists error,
    execute_c env sandbox code m
    = (inr (ExecutionResult.make "" (Some error) (proc_exit_code compile_result)), m3)
    /\ error = "Compilation error:" ++ newline ++ stderr compile_result
    /\ prefix "Compilation error:" error = true
    /\ history m3 = (history m ++ [write; gcc; ProcessWait compile_process])%list
    /\ ~ In (StartCommand sandbox executable)
           [write; gcc; ProcessWait compile_process].
Proof.
  intros file_id source_file executable write gcc Hwrite Hgcc Hwait Hcode.
  exists ("Compilation error:" ++ newline ++ stderr compile_result).
  repeat split.
  - unfold execute_c, bind at 1. unfold uuid4_str at 1.
    fold file_id. fold source_file. fold executable.
    unfold bind at 1. fold write. rewrite Hwrite.
    unfold bind at 1. fold gcc. rewrite Hgcc.
    unfold bind at 1. rewrite Hwait.
    destruct (Z.eqb_spec (proc_exit_code compile_result) 0); [contradiction|].
    reflexivity.
  - assert (H1 : history m1 = (history m ++ [write])%list).
    { unfold await in Hwrite. simpl in Hwrite.
      destruct (deadline m); [destruct (_ <=? _)|];
        inversion Hwrite; reflexivity. }
    assert (H2 : history m2 = (history m1 ++ [gcc])%list).
    { unfold await in Hgcc.
      destruct (deadline m1); [destruct (_ <=? _)|];
        inversion Hgcc; reflexivity. }
    assert (H3 : history m3 = (history m2 ++ [ProcessWait compile_process])%list).
    { unfold await in Hwait.
      destruct (deadline m2); [destruct (_ <=? _)|];
        inversion Hwait; reflexivity. }
    rewrite H3, H2, H1, <- !app_assoc. reflexivity.
  - intros [Hin | [Hin | [Hin | []]]]; discriminate Hin.
Qed.

Lemma compile_failure_reported_witness :
  let result := {| stdout := ""; stderr := "error: 'x' undeclared";
                   proc_exit_code := 1 |} in
  proc_exit_code result <> 0
  /\ exists error m3,
       execute_c Examples.compile_error_env 0%nat "int main(){ return x; }"
         initial_machine
       = (inr (ExecutionResult.make "" (Some error) 1), m3)
       /\ prefix "Compilation error:" error = true
       /\ closes m3 = [].
Proof.
  split; [discriminate|].
  edestruct (@compile_failure_reported Examples.compile_error_env 0%nat
               "int main(){ return x; }" initial_machine)
    as (error & Hrun & _ & Hprefix & Hhistory & _);
    [reflexivity | reflexivity | reflexivity | discriminate |].
  exists error. eexists. split; [exact Hrun|]. split; [exact Hprefix|].
  unfold closes. rewrite Hhistory. reflexivity.
Defined.

(** ** The execution coordinator *)

Section CoordinatorFacts.
Variable env : Env.

Lemma session_binding_some request m sandbox sid :
  session_binding request m = Some (sandbox, sid) ->
  ExecutionRequest.session_id request = Some sid
  /\ truthy sid = true
  /\ Dict.get (session_sandboxes m) sid = Some sandbox.
Proof.
  unfold session_binding.
  destruct (ExecutionRequest.session_id request) as [s|]; [|discriminate].
  destruct (truthy s) eqn:Ht; [|discriminate].
  destruct (Dict.get (session_sandboxes m) s) eqn:Hg; [|discriminate].
  intro Heq. inversion Heq; subst. auto.
Qed.

(** A request that resolves to a session does nothing in the first half
    of [execute_code_in_sandbox]; the second half reduces to the three
    branches of its [try]. *)
Lemma execute_on_session request m sandbox sid :
  session_binding request m = Some (sandbox, sid) ->
  execute_code_in_sandbox env request m
  = match run_handler env request sandbox (validated_timeout env request) m with
    | (inr result, m') =>
        (inr (Response.make (ExecutionResult.output result)
                (ExecutionResult.error result)
                (ExecutionResult.exit_code result) (Some sid)), m')
    | (inl e, m') =>
        if is_TimeoutError e
        then (inr (Response.make "" (Some "Execution timed out") (-1) None), m')
        else if is_Exception e
        then (inr (Response.make "" (Some (str_of_exn env e)) (-1) None), m')
        else (inl e, m')
    end.
Proof.
  intro Hb. destruct (session_binding_some _ _ Hb) as (Hsid & Htruthy & _).
  unfold execute_code_in_sandbox, acquire_sandbox.
  unfold bind at 1. unfold bind at 1. unfold get_machine at 1.
  rewrite Hb. unfold ret at 1.
  unfold bind at 1.
  destruct (run_handler env request sandbox (validated_timeout env request) m)
    as [[e|result] m'].
  - unfold schedule_return, truthy_opt. rewrite Hsid, Htruthy.
    destruct (is_TimeoutError e); [reflexivity|].
    destruct (is_Exception e); reflexivity.
  - unfold schedule_return, truthy_opt. rewrite Hsid, Htruthy. reflexivity.
Qed.

(** C10.  An execute request whose [session_id] is in the Session
    Registry and whose handler call succeeds answers with the handler's
    result and the session id, and leaves the idle queues, the Active
    Ephemeral Set, the Session Registry and the user index (as well as
    the sandbox metadata and the scheduled returns) exactly as they were;
    the sandbox stays bound to the session. *)
Theorem session_execute_frame request m sandbox sid result m' :
  session_binding request m = Some (sandbox, sid) ->
  run_handler env request sandbox (validated_timeout env request) m
    = (inr result, m') ->
  execute_code_in_sandbox env request m
    = (inr (Response.make (ExecutionResult.output result)
              (ExecutionResult.error result)
              (ExecutionResult.exit_code result) (Some sid)), m')
  /\ available_sandboxes m' = available_sandboxes m
  /\ active_sandboxes m' = active_sandboxes m
  /\ session_sandboxes m' = session_sandboxes m
  /\ user_sessions m' = user_sessions m
  /\ metadata m' = metadata m
  /\ scheduled m' = scheduled m
  /\ Dict.get (session_sandboxes m') sid = Some sandbox.
Proof.
  intros Hb Hrun.
  pose proof (keeps_run_handler env quiet_pool_state request sandbox
                (validated_timeout env request) m) as Hframe.
  rewrite Hrun in Hframe. simpl in Hframe.
  unfold pool_state in Hframe. injection Hframe as Ha Hact Hs Hu Hmd Hsch.
  split; [rewrite (execute_on_session _ _ Hb), Hrun; reflexivity|].
  repeat (split; [assumption|]).
  rewrite Hs. apply (session_binding_some _ _ Hb).
Qed.

(** C6, as the code has it.  When the deadline of a session-bound
    execute elapses, the caller receives the plain timeout result
    (["Execution timed out"], exit code -1, no session id and no flag);
    nothing is closed, the session stays in the Session Registry bound to
    the same sandbox, and the pool structures are as before. *)
Theorem session_timeout_keeps_session request m sandbox sid m' :
  session_binding request m = Some (sandbox, sid) ->
  run_handler env request sandbox (validated_timeout env request) m
    = (inl TimeoutError, m') ->
  execute_code_in_sandbox env request m
    = (inr (Response.make "" (Some "Execution timed out") (-1) None), m')
  /\ closes m' = closes m
  /\ Dict.get (session_sandboxes m') sid = Some sandbox
  /\ pool_state m' = pool_state m.
Proof.
  intros Hb Hrun.
  pose proof (keeps_run_handler env quiet_pool_state request sandbox
                (validated_timeout env request) m) as Hframe.
  pose proof (keeps_run_handler env quiet_closes request sandbox
                (validated_timeout env request) m) as Hclosed.
  rewrite Hrun in Hframe, Hclosed. simpl in Hframe, Hclosed.
  split; [rewrite (execute_on_session _ _ Hb), Hrun; reflexivity|].
  split; [exact Hclosed|]. split; [|exact Hframe].
  unfold pool_state in Hframe. injection Hframe as _ _ Hs _ _ _.
  rewrite Hs. apply (session_binding_some _ _ Hb).
Qed.

End CoordinatorFacts.

(** C5, as stated, fails: a request with [timeout = 0] runs under the
    timeout 0, which is outside [[1, MAX_TIMEOUT]] and is not what clamping
    gives; the execution then times out although the provider answers at
    once. *)
Lemma timeout_below_one_not_raised :
  let request := Examples.request "print(1+1)" "python" 0 None in
  validated_timeout Examples.steady_env request = 0
  /\ ~ (1 <= validated_timeout Examples.steady_env request
        <= MAX_TIMEOUT (settings Examples.steady_env))
  /\ validated_timeout Examples.steady_env request
     <> spec_clamped_timeout Examples.steady_env request
  /\ fst (execute_code_in_sandbox Examples.steady_env request initial_machine)
     = inr (Response.make "" (Some "Execution timed out") (-1) None).
Proof.
  repeat split; try reflexivity.
  - vm_compute. intros [H _]. apply H. reflexivity.
  - vm_compute. discriminate.
Qed.

Lemma session_timeout_keeps_session_witness :
  let request := Examples.request "while True: pass" "python" 1 (Some "s1") in
  session_binding request Examples.one_session = Some (0%nat, "s1")
  /\ fst (run_handler Examples.slow_env request 0%nat
            (validated_timeout Examples.slow_env request) Examples.one_session)
     = inl TimeoutError
  /\ fst (execute_code_in_sandbox Examples.slow_env request Examples.one_session)
     = inr (Response.make "" (Some "Execution timed out") (-1) None).
Proof.
  split; [reflexivity|]. split; [reflexivity|].
  edestruct (@session_timeout_keeps_session Examples.slow_env
               (Examples.request "while True: pass" "python" 1 (Some "s1"))
               Examples.one_session 0%nat "s1")
    as (Hrun & _); [reflexivity | reflexivity |].
  rewrite Hrun. reflexivity.
Defined.

(** C6, as stated, fails: a session-bound execute that times out leaves the
    session in the Session Registry, still bound to its sandbox, and closes
    nothing. *)
Lemma timed_out_session_survives :
  let request := Examples.request "while True: pass" "python" 1 (Some "s1") in
  let outcome :=
    execute_code_in_sandbox Examples.slow_env request Examples.one_session in
  fst outcome = inr (Response.make "" (Some "Execution timed out") (-1) None)
  /\ Dict.get (session_sandboxes (snd outcome)) "s1" <> None
  /\ ~ In 0%nat (closes (snd outcome)).
Proof.
  split; [reflexivity|]. split.
  - vm_compute. discriminate.
  - vm_compute. tauto.
Qed.

Lemma session_execute_frame_witness :
  let request := Examples.request "print(x)" "python" 30 (Some "s1") in
  session_binding request Examples.one_session = Some (0%nat, "s1")
  /\ fst (run_handler Examples.steady_env request 0%nat
            (validated_timeout Examples.steady_env request) Examples.one_session)
     = inr (ExecutionResult.make "2" (Some "") 0)
  /\ fst (execute_code_in_sandbox Examples.steady_env request Examples.one_session)
     = inr (Response.make "2" (Some "") 0 (Some "s1"))
  /\ pool_state
       (snd (execute_code_in_sandbox Examples.steady_env request
               Examples.one_session))
     = pool_state Examples.one_session.
Proof.
  split; [reflexivity|]. split; [reflexivity|].
  edestruct (@session_execute_frame Examples.steady_env
               (Examples.request "print(x)" "python" 30 (Some "s1"))
               Examples.one_session 0%nat "s1")
    as (Hrun & Ha & Hact & Hs & Hu & Hmd & Hsch & _);
    [reflexivity | reflexivity |].
  rewrite Hrun. split; [reflexivity|].
  reflexivity.
Defined.

(** ** Concrete runs of the coordinator *)

(** C1, on the code: with [MAX_POOL_SIZE = 1] and an empty pool, a session
    is opened and then an execute without session is served; the second
    request is answered normally, on a second sandbox, and two sandboxes
    are live. *)
Theorem pool_grows_past_max :
  let env := Examples.single_slot_env in
  let m1 := step env (CreateSession (SessionRequest.make "python" "alice"))
              initial_machine in
  let outcome :=
    execute_code_in_sandbox env (Examples.request "print(1+1)" "python" 30 None) m1 in
  MAX_POOL_SIZE (settings env) = 1
  /\ live_count env m1 = 1
  /\ fst outcome = inr (Response.make "2" (Some "") 0 None)
  /\ live_count env (snd outcome) = 2
  /\ held_sandboxes (snd outcome) = [1%nat; 0%nat].
Proof. repeat split. Qed.

(** C2, on the code: an execute naming the session ["ghost"], which the
    Session Registry does not hold, is served like an ephemeral one: a
    sandbox is created and recorded in the Active Ephemeral Set, the code
    runs, the answer is a normal result that echoes the session id, and no
    return to the pool is scheduled. *)
Theorem unknown_session_falls_through :
  let request := Examples.request "print(1+1)" "python" 30 (Some "ghost") in
  let outcome :=
    execute_code_in_sandbox Examples.steady_env request initial_machine in
  Dict.contains (session_sandboxes initial_machine) "ghost" = false
  /\ fst outcome = inr (Response.make "2" (Some "") 0 (Some "ghost"))
  /\ history (snd outcome)
     = [SandboxCreate; StartPython 0%nat "print(1+1)"; ProcessWait 1%nat]
  /\ active_sandboxes (snd outcome) = [(Examples.uuid_stream 0, 0%nat)]
  /\ scheduled (snd outcome) = [].
Proof. repeat split. Qed.

(** C3, on the code: an execute in the language ["ruby"], which has no
    handler, first obtains a sandbox (here by creating one); the 400
    raised by the handler lookup is caught by the coordinator's own
    [except Exception], so the caller gets a normal answer whose [error]
    is the text of that exception, and the sandbox is then returned to an
    idle queue named ["ruby"]. *)
Theorem unsupported_language_after_checkout :
  let request := Examples.request "puts 1" "ruby" 30 None in
  let outcome :=
    execute_code_in_sandbox Examples.steady_env request initial_machine in
  fst (get_language_handler "ruby" initial_machine)
    = inl (HTTPException 400 "Unsupported language: ruby")
  /\ fst outcome
     = inr (Response.make "" (Some "400: Unsupported language: ruby") (-1) None)
  /\ history (snd outcome) = [SandboxCreate]
  /\ active_sandboxes (snd outcome) = [(Examples.uuid_stream 0, 0%nat)]
  /\ available_sandboxes (snd (run_next_task Examples.steady_env (snd outcome)))
     = [("ruby", [0%nat])].
Proof. repeat split. Qed.

(** C4, on the code: the reset command of sandbox 7 cannot be started, so
    [reset_sandbox] answers [False]; [return_sandbox_to_pool] ignores the
    answer, closes nothing and appends the sandbox to the idle queue. *)
Theorem failed_reset_still_enqueued :
  let env := Examples.reset_failing_env in
  let outcome := return_sandbox_to_pool env "e1" 7%nat "python" true
                   Examples.one_active in
  fst (reset_sandbox env 7%nat Examples.one_active) = inr false
  /\ fst outcome = inr tt
  /\ available_sandboxes (snd outcome) = [("python", [7%nat])]
  /\ history (snd outcome) = [StartCommand 7%nat reset_command]
  /\ closes (snd outcome) = [].
Proof. repeat split. Qed.

(** ** Shutdown *)

Section LoopFacts.
Context {A : Type}.




End LoopFacts.

Section ShutdownFacts.
Variable env : Env.


Hypothesis close_succeeds : forall h sb, reply env h (SandboxClose sb) = inr tt.


End ShutdownFacts.



(** ** The idle queues *)

Lemma quiet_available : quiet available_sandboxes.
Proof. split; intros; reflexivity. Qed.

Section PoolFacts.
Variable env : Env.

Lemma view_after_bind {X A B} (view : Machine -> X) (c : M A) (k : A -> M B) m :
  (forall a, keeps view (k a)) ->
  view (snd (bind c k m)) = view (snd (c m)).
Proof.
  intro Hk. unfold bind. destruct (c m) as [[e|a] m1]; [reflexivity|].
  apply Hk.
Qed.

Lemma keeps_close_available sandbox :
  keeps available_sandboxes (await env (SandboxClose sandbox)).
Proof.
  intro m. unfold await.
  destruct (deadline m) as [d|]; [destruct (d <=? _)|]; reflexivity.
Qed.

Lemma keeps_create_sandbox {X} (view : Machine -> X) :
  quiet view -> keeps view (create_sandbox env).
Proof. intro Hq. unfold create_sandbox. frame. Qed.

Lemma keeps_reset_sandbox {X} (view : Machine -> X) sandbox :
  quiet view -> keeps view (reset_sandbox env sandbox).
Proof. intro Hq. unfold reset_sandbox. frame. Qed.

(** [reset_sandbox] swallows every exception. *)
Lemma reset_sandbox_raises sandbox m e m' :
  reset_sandbox env sandbox m = (inl e, m') -> is_Exception e = false.
Proof.
  unfold reset_sandbox, try_except, bind.
  destruct (await env (StartCommand sandbox reset_command) m) as [[e0|p] m1].
  - destruct (is_Exception e0) eqn:He; simpl; intro Heq;
      inversion Heq; subst; assumption.
  - discriminate.
Qed.

(** Checkout takes the head of a non-empty queue and leaves the rest. *)
Lemma checkout_pops_head language m sandbox rest :
  Dict.get (available_sandboxes m) language = Some (sandbox :: rest) ->
  manage_sandbox_pool env language m
  = (inr (Some sandbox),
     with_available (Dict.set (available_sandboxes m) language rest) m).
Proof.
  intro Hget. unfold manage_sandbox_pool, bind, get_machine. rewrite Hget.
  reflexivity.
Qed.

(** With nothing idle for the language, checkout asks the provider for a
    new sandbox; no count of live sandboxes is consulted. *)
Lemma checkout_miss_creates language m :
  queue language m = [] ->
  manage_sandbox_pool env language m = create_sandbox env m.
Proof.
  unfold queue, manage_sandbox_pool, bind, get_machine.
  destruct (Dict.get (available_sandboxes m) language) as [[|sb rest]|];
    [reflexivity | discriminate | reflexivity].
Qed.

Lemma checkout_cases language m :
  (exists sandbox rest,
      Dict.get (available_sandboxes m) language = Some (sandbox :: rest)
      /\ manage_sandbox_pool env language m
         = (inr (Some sandbox),
            with_available (Dict.set (available_sandboxes m) language rest) m))
  \/ (queue language m = []
      /\ available_sandboxes (snd (manage_sandbox_pool env language m))
         = available_sandboxes m).
Proof.
  destruct (Dict.get (available_sandboxes m) language) as [[|sb rest]|] eqn:Hget.
  - right. assert (Hq : queue language m = []) by (unfold queue; now rewrite Hget).
    split; [exact Hq|]. rewrite (checkout_miss_creates _ _ Hq).
    apply (keeps_create_sandbox quiet_available).
  - left. exists sb, rest. split; [reflexivity|]. now apply checkout_pops_head.
  - right. assert (Hq : queue language m = []) by (unfold queue; now rewrite Hget).
    split; [exact Hq|]. rewrite (checkout_miss_creates _ _ Hq).
    apply (keeps_create_sandbox quiet_available).
Qed.

(** The block shared by [return_sandbox_to_pool] and
    [end_session_and_return_sandbox]: whatever precedes the append, the
    idle queues end up unchanged or with the sandbox appended. *)
Lemma enqueue_block {B} (before : M B) language sandbox m :
  keeps available_sandboxes before ->
  let after :=
    snd (try_except (before ;; append_available language sandbox)
           (fun _ => await env (SandboxClose sandbox)) m) in
  available_sandboxes after = available_sandboxes m
  \/ available_sandboxes after
     = pool_append (available_sandboxes m) language sandbox.
Proof.
  intros Hb. unfold try_except, bind. specialize (Hb m).
  destruct (before m) as [[e|b] m1]; simpl in Hb.
  - left. destruct (is_Exception e); simpl; [|exact Hb].
    now rewrite keeps_close_available.
  - right. simpl. now rewrite Hb.
Qed.

Lemma return_unfold sandbox_id sandbox language reset m :
  return_sandbox_to_pool env sandbox_id sandbox language reset m
  = if Dict.contains (active_sandboxes m) sandbox_id
    then try_except
           ((if reset then _ <- reset_sandbox env sandbox ;; ret tt else ret tt) ;;
            append_available language sandbox)
           (fun _ => await env (SandboxClose sandbox))
           (with_active (Dict.pop (active_sandboxes m) sandbox_id) m)
    else (inr tt, m).
Proof.
  unfold return_sandbox_to_pool. unfold bind at 1. unfold get_machine at 1.
  destruct (Dict.contains (active_sandboxes m) sandbox_id); reflexivity.
Qed.

Lemma keeps_optional_reset {X} (view : Machine -> X) (reset : bool) sandbox :
  quiet view ->
  keeps view (if reset then _ <- reset_sandbox env sandbox ;; ret tt else ret tt).
Proof.
  intro Hq. destruct reset; [|apply keeps_ret].
  apply keeps_bind; [now apply keeps_reset_sandbox | intro; apply keeps_ret].
Qed.

Lemma return_available sandbox_id sandbox language reset m :
  let after := snd (return_sandbox_to_pool env sandbox_id sandbox language reset m) in
  available_sandboxes after = available_sandboxes m
  \/ available_sandboxes after
     = pool_append (available_sandboxes m) language sandbox.
Proof.
  rewrite return_unfold.
  destruct (Dict.contains (active_sandboxes m) sandbox_id); [|now left].
  exact (@enqueue_block _ _ language sandbox
           (with_active (Dict.pop (active_sandboxes m) sandbox_id) m)
           (keeps_optional_reset reset sandbox quiet_available)).
Qed.

(** What [end_session_and_return_sandbox] does to the user index. *)
Lemma end_session_unfold session_id m :
  end_session_and_return_sandbox env session_id m
  = match Dict.get (session_sandboxes m) session_id with
    | None => (inl (HTTPException 404 "Session not found"), m)
    | Some sandbox =>
        let m1 := with_sessions (Dict.pop (session_sandboxes m) session_id) m in
        match Dict.get (metadata m) sandbox with
        | None => (inl (AttributeError "metadata"), m1)
        | Some md =>
            (try_except
               (_ <- reset_sandbox env sandbox ;;
                append_available
                  (match Metadata.language md with Some l => l | None => "python" end)
                  sandbox)
               (fun _ => await env (SandboxClose sandbox)) ;;
             ret (true, "Session ended successfully"))
              (match Metadata.user_id md with
               | Some user_id =>
                   if truthy user_id then
                     match Dict.get (user_sessions m) user_id with
                     | Some sessions =>
                         with_user_sessions
                           (Dict.set (user_sessions m) user_id
                              (list_remove session_id sessions)) m1
                     | None => m1
                     end
                   else m1
               | None => m1
               end)
        end
    end.
Proof.
  unfold end_session_and_return_sandbox. unfold bind at 1. unfold get_machine at 1.
  destruct (Dict.get (session_sandboxes m) session_id) as [sandbox|]; [|reflexivity].
  unfold bind at 1. unfold modify at 1.
  unfold bind at 1. unfold sandbox_metadata, bind at 1, get_machine at 1.
  cbn [metadata with_sessions].
  destruct (Dict.get (metadata m) sandbox) as [md|]; reflexivity.
Qed.

Lemma end_session_available session_id m :
  let after := snd (end_session_and_return_sandbox env session_id m) in
  available_sandboxes after = available_sandboxes m
  \/ exists language sandbox,
       available_sandboxes after
       = pool_append (available_sandboxes m) language sandbox.
Proof.
  rewrite end_session_unfold.
  destruct (Dict.get (session_sandboxes m) session_id) as [sandbox|]; [|now left].
  cbv zeta.
  destruct (Dict.get (metadata m) sandbox) as [md|]; [|now left].
  match goal with
  | |- context [bind (try_except _ _) _ ?x] => remember x as m2 eqn:Heqm2
  end.
  assert (Hm2 : available_sandboxes m2 = available_sandboxes m).
  { subst m2. destruct (Metadata.user_id md) as [u|]; [|reflexivity].
    destruct (truthy u); [|reflexivity].
    destruct (Dict.get (user_sessions m) u); reflexivity. }
  clear Heqm2.
  rewrite view_after_bind by (intro; apply keeps_ret).
  destruct (@enqueue_block _ _
              (match Metadata.language md with Some l => l | None => "python" end)
              sandbox m2 (keeps_reset_sandbox sandbox quiet_available))
    as [H|H]; rewrite Hm2 in H; [now left | right; eauto].
Qed.
End PoolFacts.

Section FifoFacts.
Variable env : Env.

Lemma acquire_unfold request m :
  session_binding request m = None ->
  acquire_sandbox env request m
  = match manage_sandbox_pool env (ExecutionRequest.language request) m with
    | (inr (Some sandbox), m1) =>
        (inr (sandbox, uuid4 env (uuids m1)),
         with_metadata
           (Dict.set (metadata m1) sandbox
              (Metadata.make (Some (ExecutionRequest.language request)) None None))
           (with_active
              (Dict.set (active_sandboxes m1) (uuid4 env (uuids m1)) sandbox)
              (with_uuids (S (uuids m1)) m1)))
    | (inr None, m1) => (inl (HTTPException 503 "No sandbox available"), m1)
    | (inl e, m1) => (inl e, m1)
    end.
Proof.
  intro Hb. unfold acquire_sandbox. unfold bind at 1. unfold get_machine at 1.
  rewrite Hb. unfold bind at 1.
  destruct (manage_sandbox_pool env (ExecutionRequest.language request) m)
    as [[e|[sandbox|]] m1]; reflexivity.
Qed.

Lemma keeps_schedule_return request sandbox_id sandbox :
  keeps available_sandboxes (schedule_return request sandbox_id sandbox).
Proof.
  unfold schedule_return, create_task.
  destruct (truthy_opt _); [apply keeps_ret | now apply keeps_modify].
Qed.

(** Past the choice of the sandbox, an execute leaves the idle queues
    alone: the return to the pool is only scheduled. *)
Lemma execute_available request m :
  available_sandboxes (snd (execute_code_in_sandbox env request m))
  = available_sandboxes (snd (acquire_sandbox env request m)).
Proof.
  unfold execute_code_in_sandbox. apply view_after_bind.
  intros [sandbox sandbox_id] m1.
  assert (Hhandler : forall r : Response.t,
             keeps available_sandboxes
               (schedule_return request sandbox_id sandbox ;; ret r)).
  { intro r. apply keeps_bind;
      [apply keeps_schedule_return | intro; apply keeps_ret]. }
  assert (Hcatch : forall e m2,
             available_sandboxes m2 = available_sandboxes m1 ->
             available_sandboxes
               (snd (if is_TimeoutError e then
                       (schedule_return request sandbox_id sandbox ;;
                        ret (Response.make "" (Some "Execution timed out") (-1) None)) m2
                     else if is_Exception e then
                       (schedule_return request sandbox_id sandbox ;;
                        ret (Response.make "" (Some (str_of_exn env e)) (-1) None)) m2
                     else (inl e, m2)))
             = available_sandboxes m1).
  { intros e m2 Hm2.
    destruct (is_TimeoutError e); [|destruct (is_Exception e)];
      try exact Hm2; (etransitivity; [apply Hhandler | exact Hm2]). }
  pose proof (keeps_run_handler env quiet_available request sandbox
                (validated_timeout env request) m1) as Hrun.
  cbv beta. unfold bind at 1.
  destruct (run_handler env request sandbox (validated_timeout env request) m1)
    as [[e|result] m2]; simpl in Hrun.
  - now apply Hcatch.
  - match goal with
    | |- context [bind ?c ?k m2] =>
        pose proof (@keeps_bind _ available_sandboxes _ _ c k
                      (keeps_schedule_return request sandbox_id sandbox)
                      (fun _ => keeps_ret _ _) m2) as Hs;
        destruct (bind c k m2) as [[e|response] m3]
    end; simpl in Hs.
    + apply Hcatch. congruence.
    + simpl. congruence.
Qed.

Lemma acquire_available request m :
  session_binding request m = None ->
  available_sandboxes (snd (acquire_sandbox env request m))
  = available_sandboxes
      (snd (manage_sandbox_pool env (ExecutionRequest.language request) m)).
Proof.
  intro Hb. rewrite (acquire_unfold _ _ Hb).
  destruct (manage_sandbox_pool env (ExecutionRequest.language request) m)
    as [[e|[sandbox|]] m1]; reflexivity.
Qed.

Lemma create_session_available request m :
  available_sandboxes (snd (create_session_with_sandbox env request m))
  = available_sandboxes
      (snd (manage_sandbox_pool env (SessionRequest.language request) m)).
Proof.
  unfold create_session_with_sandbox. apply view_after_bind.
  intros [sandbox|]; [|apply keeps_raise].
  pose proof quiet_available as Hq. frame.
Qed.

Lemma shutdown_available m :
  available_sandboxes (snd (shutdown_event env m)) = available_sandboxes m.
Proof.
  unfold shutdown_event, cleanup_sandboxes.
  unfold bind at 1. unfold get_machine at 1.
  revert m. 
  assert (Hloop : forall (xs : list Sandbox),
             keeps available_sandboxes
               (for_each xs (fun sandbox => await env (SandboxClose sandbox)))).
  { intro xs. apply keeps_for_each. intro. apply keeps_close_available. }
  intro m.
  match goal with |- available_sandboxes (snd (?c m)) = _ =>
    assert (Hc : keeps available_sandboxes c); [|apply Hc] end.
  repeat (apply keeps_bind; [|intro]);
    apply keeps_for_each; intro k;
    match goal with |- keeps _ (match ?x with _ => _ end) => destruct x end;
    first [apply Hloop | apply keeps_close_available | apply keeps_ret].
Qed.

Lemma run_next_task_unfold m :
  run_next_task env m
  = match scheduled m with
    | [] => (inr tt, m)
    | t :: rest =>
        return_sandbox_to_pool env (task_sandbox_id t) (task_sandbox t)
          (task_language t) (task_reset t) (with_scheduled rest m)
    end.
Proof.
  unfold run_next_task. unfold bind at 1. unfold get_machine at 1.
  destruct (scheduled m); reflexivity.
Qed.

Lemma run_next_task_available m :
  let after := snd (run_next_task env m) in
  available_sandboxes after = available_sandboxes m
  \/ exists language sandbox,
       available_sandboxes after
       = pool_append (available_sandboxes m) language sandbox.
Proof.
  rewrite run_next_task_unfold.
  destruct (scheduled m) as [|t rest]; [now left|].
  pose proof (return_available env (task_sandbox_id t) (task_sandbox t)
                (task_language t) (task_reset t) (with_scheduled rest m)) as H.
  cbv zeta in *. destruct H as [H|H]; [left | right; eauto]; exact H.
Qed.

(** What one operation does to the idle queues: an operation that checks
    a sandbox out either takes the head of that language's queue or, the
    queue being empty, leaves every queue alone; any other operation
    leaves the queues alone or appends one sandbox to one of them. *)
Lemma step_available op m :
  match checkout_of env op m with
  | Some (l, sandbox) =>
      (exists rest,
          Dict.get (available_sandboxes m) l = Some (sandbox :: rest)
          /\ available_sandboxes (step env op m)
             = Dict.set (available_sandboxes m) l rest)
      \/ (queue l m = []
          /\ available_sandboxes (step env op m) = available_sandboxes m)
  | None =>
      available_sandboxes (step env op m) = available_sandboxes m
      \/ exists l sandbox,
           available_sandboxes (step env op m)
           = pool_append (available_sandboxes m) l sandbox
  end.
Proof.
  assert (Hask : forall l m' ,
    available_sandboxes m'
      = available_sandboxes (snd (manage_sandbox_pool env l m)) ->
    match
      match fst (manage_sandbox_pool env l m) with
      | inr (Some sandbox) => Some (l, sandbox)
      | _ => None
      end
    with
    | Some (l, sandbox) =>
        (exists rest,
            Dict.get (available_sandboxes m) l = Some (sandbox :: rest)
            /\ available_sandboxes m' = Dict.set (available_sandboxes m) l rest)
        \/ (queue l m = [] /\ available_sandboxes m' = available_sandboxes m)
    | None =>
        available_sandboxes m' = available_sandboxes m
        \/ exists l sandbox,
             available_sandboxes m' = pool_append (available_sandboxes m) l sandbox
    end).
  { intros l m' Hm'.
    destruct (checkout_cases env l m) as [(sb & rest & Hget & Hrun)|[Hq Hsame]].
    - rewrite Hrun in *. simpl in *. left. eauto.
    - rewrite Hsame in Hm'.
      destruct (fst (manage_sandbox_pool env l m)) as [e|[sb|]]; auto. }
  destruct op as [request|request|session_id| |]; simpl.
  - destruct (session_binding request m) as [[sandbox sid]|] eqn:Hb.
    + left. rewrite execute_available. unfold acquire_sandbox.
      unfold bind, get_machine. now rewrite Hb.
    + apply Hask. rewrite execute_available. now apply acquire_available.
  - apply Hask. apply create_session_available.
  - apply end_session_available.
  - apply run_next_task_available.
  - left. apply shutdown_available.
Qed.
End FifoFacts.

Section Fifo.
Variable env : Env.

Lemma queue_after_pop m m' l rest language :
  available_sandboxes m' = Dict.set (available_sandboxes m) l rest ->
  queue language m'
  = if (l =? language)%string then rest else queue language m.
Proof.
  intro Hav. unfold queue. rewrite Hav.
  destruct (String.eqb_spec l language) as [->|Hne].
  - now rewrite get_set_same.
  - now rewrite get_set_other.
Qed.

Lemma queue_after_append m m' l sandbox language :
  available_sandboxes m' = pool_append (available_sandboxes m) l sandbox ->
  queue language m'
  = if (l =? language)%string
    then (queue language m ++ [sandbox])%list
    else queue language m.
Proof.
  intro Hav. unfold queue, pool_append in *. rewrite Hav.
  destruct (String.eqb_spec l language) as [->|Hne].
  - now rewrite get_set_same.
  - now rewrite get_set_other.
Qed.

(** One operation, seen from one queue: a checkout for the language takes
    the head; every other operation keeps the queue or adds at its tail. *)
Lemma step_queue op m language :
  match checkout_of env op m with
  | Some (l, sandbox) =>
      if (l =? language)%string
      then queue language m = sandbox :: queue language (step env op m)
           \/ queue language m = []
      else queue language (step env op m) = queue language m
  | None =>
      exists added,
        queue language (step env op m) = (queue language m ++ added)%list
  end.
Proof.
  pose proof (step_available env op m) as Hstep.
  destruct (checkout_of env op m) as [[l sandbox]|].
  - destruct Hstep as [(rest & Hget & Hav)|[Hempty Hav]].
    + rewrite (@queue_after_pop m _ l rest language Hav).
      destruct (String.eqb_spec l language) as [->|Hne]; [|reflexivity].
      left. unfold queue. now rewrite Hget.
    + destruct (String.eqb_spec l language) as [->|Hne].
      * now right.
      * unfold queue. now rewrite Hav.
  - destruct Hstep as [Hav|(l & sandbox & Hav)].
    + exists []. unfold queue. now rewrite Hav, app_nil_r.
    + rewrite (@queue_after_append m _ l sandbox language Hav).
      destruct (l =? language)%string;
        [now exists [sandbox] | exists []; now rewrite app_nil_r].
Qed.

(** C7.  Idle queues are first in, first out.  Let [a] stand in the
    queue of [language] with [b] nowhere ahead of it ([b] was released
    after [a], or is yet to be released).  Then, whatever operations
    follow, every time [b] is handed out for [language], [a] was handed
    out for it earlier. *)
Theorem pool_queues_are_fifo (language : string) (a b : Sandbox)
    (ops : list Op) (m : Machine) (ahead behind : list Sandbox) (i : nat) :
  queue language m = (ahead ++ a :: behind)%list ->
  ~ In b ahead ->
  a <> b ->
  nth_error (handed_out env language ops m) i = Some b ->
  exists j, (j < i)%nat
            /\ nth_error (handed_out env language ops m) j = Some a.
Proof.
  revert m ahead behind i.
  induction ops as [|op ops IH]; intros m ahead behind i Hq Hb Hab Hi.
  - destruct i; discriminate Hi.
  - simpl in *. pose proof (step_queue op m language) as Hstep.
    destruct (checkout_of env op m) as [[l sandbox]|].
    + destruct (l =? language)%string.
      * destruct Hstep as [Hpop|Hempty];
          [|rewrite Hq in Hempty; destruct ahead; discriminate Hempty].
        rewrite Hq in Hpop.
        destruct ahead as [|p ahead]; simpl in Hpop;
          injection Hpop as Hhead Htail; subst sandbox.
        -- destruct i as [|i]; simpl in Hi.
           ++ congruence.
           ++ exists 0%nat. split; [lia | reflexivity].
        -- destruct i as [|i]; simpl in Hi.
           ++ exfalso. apply Hb. left. congruence.
           ++ destruct (IH (step env op m) ahead behind i) as (j & Hj & Hnth);
                auto.
              { intro Hin. apply Hb. now right. }
              exists (S j). split; [lia | exact Hnth].
      * apply (IH (step env op m) ahead behind i); auto. congruence.
    + destruct Hstep as (added & Hadd).
      apply (IH (step env op m) ahead (behind ++ added)%list i); auto.
      rewrite Hadd, Hq, <- app_assoc. reflexivity.
Qed.
End Fifo.

Lemma pool_queues_are_fifo_witness :
  let ops :=
    [ Execute (Examples.request "print(1)" "python" 30 None);
      RunTask;
      CreateSession (SessionRequest.make "python" "bob");
      Execute (Examples.request "print(2)" "python" 30 None) ] in
  queue "python" Examples.warm_pool = [0%nat; 1%nat]
  /\ handed_out Examples.steady_env "python" ops Examples.warm_pool
     = [0%nat; 1%nat; 0%nat]
  /\ exists j, (j < 1)%nat
       /\ nth_error (handed_out Examples.steady_env "python" ops
                       Examples.warm_pool) j = Some 0%nat.
Proof.
  split; [reflexivity|]. split; [reflexivity|].
  apply (@pool_queues_are_fifo Examples.steady_env "python" 0%nat 1%nat _
           Examples.warm_pool [] [1%nat] 1%nat).
  - reflexivity.
  - intros [].
  - discriminate.
  - reflexivity.
Defined.

(** ** What escapes the coordinator, and what is never closed *)

Section Escapes.
Variable env : Env.

Lemma schedule_return_total request sandbox_id sandbox m :
  schedule_return request sandbox_id sandbox m
  = (inr tt, snd (schedule_return request sandbox_id sandbox m)).
Proof.
  unfold schedule_return. destruct (truthy_opt _); reflexivity.
Qed.

(** The two halves of [execute_code_in_sandbox] laid out: the sandbox is
    chosen first; the handler lookup, the file staging and the run come
    after, inside the [try]. *)
Lemma execute_unfold request m :
  execute_code_in_sandbox env request m
  = match acquire_sandbox env request m with
    | (inl e, m1) => (inl e, m1)
    | (inr (sandbox, sandbox_id), m1) =>
        match run_handler env request sandbox (validated_timeout env request) m1 with
        | (inr result, m2) =>
            (inr (Response.make (ExecutionResult.output result)
                    (ExecutionResult.error result)
                    (ExecutionResult.exit_code result)
                    (if truthy_opt (ExecutionRequest.session_id request)
                     then ExecutionRequest.session_id request else None)),
             snd (schedule_return request sandbox_id sandbox m2))
        | (inl e, m2) =>
            if is_TimeoutError e then
              (inr (Response.make "" (Some "Execution timed out") (-1) None),
               snd (schedule_return request sandbox_id sandbox m2))
            else if is_Exception e then
              (inr (Response.make "" (Some (str_of_exn env e)) (-1) None),
               snd (schedule_return request sandbox_id sandbox m2))
            else (inl e, m2)
        end
    end.
Proof.
  unfold execute_code_in_sandbox. unfold bind at 1.
  destruct (acquire_sandbox env request m) as [[e|[sandbox sandbox_id]] m1];
    [reflexivity|].
  unfold bind at 1.
  destruct (run_handler env request sandbox (validated_timeout env request) m1)
    as [[e|result] m2].
  - destruct (is_TimeoutError e); [|destruct (is_Exception e)];
      unfold bind; try rewrite schedule_return_total; reflexivity.
  - unfold bind. rewrite schedule_return_total. reflexivity.
Qed.

Lemma create_sandbox_raises m e m' :
  create_sandbox env m = (inl e, m') -> is_Exception e = false.
Proof.
  unfold create_sandbox, try_except, bind.
  destruct (await env SandboxCreate m) as [[e0|sb] m1].
  - destruct (is_Exception e0) eqn:He; simpl; intro Heq;
      inversion Heq; subst; assumption.
  - discriminate.
Qed.

Lemma manage_sandbox_pool_raises language m e m' :
  manage_sandbox_pool env language m = (inl e, m') -> is_Exception e = false.
Proof.
  destruct (checkout_cases env language m) as [(sb & rest & _ & Hrun)|[Hq _]].
  - rewrite Hrun. discriminate.
  - rewrite (checkout_miss_creates env _ _ Hq). apply create_sandbox_raises.
Qed.

(** Whatever the request, the only HTTP error [execute_code_in_sandbox]
    lets out is the 503 of a failed checkout: neither the 400 of an unknown
    language nor a 404 for an unknown session ever reaches the caller. *)
Lemma execute_raises_only_503 request m e m' :
  execute_code_in_sandbox env request m = (inl e, m') ->
  e = HTTPException 503 "No sandbox available" \/ is_Exception e = false.
Proof.
  rewrite execute_unfold.
  destruct (acquire_sandbox env request m) as [[e1|[sandbox sandbox_id]] m1] eqn:Hacq.
  - intro Heq. inversion Heq; subst. clear Heq.
    unfold acquire_sandbox in Hacq. unfold bind at 1 in Hacq.
    unfold get_machine at 1 in Hacq.
    destruct (session_binding request m) as [binding|]; [discriminate Hacq|].
    unfold bind at 1 in Hacq.
    destruct (manage_sandbox_pool env (ExecutionRequest.language request) m)
      as [[e2|[sandbox|]] m2] eqn:Hm.
    + inversion Hacq; subst. right. eapply manage_sandbox_pool_raises; eauto.
    + discriminate Hacq.
    + inversion Hacq. now left.
  - destruct (run_handler env request sandbox (validated_timeout env request) m1)
      as [[e2|result] m2]; [|discriminate].
    destruct (is_TimeoutError e2); [discriminate|].
    destruct (is_Exception e2) eqn:He; [discriminate|].
    intro Heq. inversion Heq; subst. now right.
Qed.

(** [return_sandbox_to_pool] never closes a sandbox: [reset_sandbox] lets
    no exception out, so the [except] branch that would close is dead. *)
Lemma return_never_closes sandbox_id sandbox language reset m :
  closes (snd (return_sandbox_to_pool env sandbox_id sandbox language reset m))
  = closes m.
Proof.
  rewrite return_unfold.
  destruct (Dict.contains (active_sandboxes m) sandbox_id); [|reflexivity].
  set (m1 := with_active (Dict.pop (active_sandboxes m) sandbox_id) m).
  change (closes m) with (closes m1).
  unfold try_except. unfold bind at 1.
  pose proof (keeps_optional_reset env reset sandbox quiet_closes m1) as Hkeep.
  destruct ((if reset then _ <- reset_sandbox env sandbox ;; ret tt else ret tt) m1)
    as [[e|[]] m2] eqn:Hpre; simpl in Hkeep.
  - assert (He : is_Exception e = false).
    { destruct reset; [|discriminate Hpre].
      unfold bind in Hpre.
      destruct (reset_sandbox env sandbox m1) as [[e0|b] m3] eqn:Hreset;
        [|discriminate Hpre].
      inversion Hpre; subst. eapply reset_sandbox_raises; eauto. }
    rewrite He. exact Hkeep.
  - exact Hkeep.
Qed.
End Escapes.

(** * Further properties of the code *)

(** ** Dictionaries, continued *)

Section DictMore.
Context {K V : Type} `{EqKey K}.

Lemma get_in_keys (d : list (K * V)) k v :
  Dict.get d k = Some v -> In k (Dict.keys d).
Proof.
  induction d as [|[k' v'] d IH]; simpl; [discriminate|].
  destruct (key_eqb_spec k k') as [->|Hne]; [now left | right; auto].
Qed.

Lemma get_none_not_in (d : list (K * V)) k :
  Dict.get d k = None -> ~ In k (Dict.keys d).
Proof.
  induction d as [|[k' v'] d IH]; simpl; [tauto|].
  destruct (key_eqb_spec k k') as [->|Hne]; [discriminate|].
  intros Hg [Heq|Hin]; [congruence | now apply IH].
Qed.

Lemma not_in_get_none (d : list (K * V)) k :
  ~ In k (Dict.keys d) -> Dict.get d k = None.
Proof.
  induction d as [|[k' v'] d IH]; simpl; intro Hnot; [reflexivity|].
  rewrite key_eqb_neq by (intro; subst; tauto). apply IH. tauto.
Qed.

(** Removing a key that was just added to a dictionary without it gives
    the dictionary back. *)
Lemma pop_set_fresh (d : list (K * V)) k v :
  Dict.get d k = None -> Dict.pop (Dict.set d k v) k = d.
Proof.
  induction d as [|[k' v'] d IH]; simpl.
  - now rewrite key_eqb_refl.
  - destruct (key_eqb_spec k k') as [->|Hne]; [discriminate|].
    intro Hg. simpl. rewrite (key_eqb_neq Hne). now rewrite IH.
Qed.

Lemma keys_pop_subset (d : list (K * V)) k k' :
  In k' (Dict.keys (Dict.pop d k)) -> In k' (Dict.keys d).
Proof.
  induction d as [|[k0 v0] d IH]; simpl; [tauto|].
  destruct (key_eqb k k0); simpl; [now right|].
  intros [Heq|Hin]; [now left | right; auto].
Qed.

Lemma pop_well_formed (d : list (K * V)) k :
  well_formed d -> well_formed (Dict.pop d k).
Proof.
  unfold well_formed. induction d as [|[k0 v0] d IH]; simpl; intro Hwf; [constructor|].
  inversion Hwf as [|? ? Hnotin Hwf']; subst.
  destruct (key_eqb k k0); simpl; [assumption|].
  constructor; [|auto]. intro Hin. apply Hnotin. eapply keys_pop_subset; eauto.
Qed.

(** In a dictionary, a popped key is gone. *)
Lemma get_pop_same (d : list (K * V)) k :
  well_formed d -> Dict.get (Dict.pop d k) k = None.
Proof.
  unfold well_formed. induction d as [|[k0 v0] d IH]; simpl; intro Hwf; [reflexivity|].
  inversion Hwf as [|? ? Hnotin Hwf']; subst.
  destruct (key_eqb_spec k k0) as [->|Hne].
  - now apply not_in_get_none.
  - simpl. rewrite (key_eqb_neq Hne). auto.
Qed.

Lemma keys_set (d : list (K * V)) k v k' :
  In k' (Dict.keys (Dict.set d k v)) -> k' = k \/ In k' (Dict.keys d).
Proof.
  induction d as [|[k0 v0] d IH]; simpl.
  - intros [Heq|[]]; now left.
  - destruct (key_eqb_spec k k0) as [->|Hne]; simpl.
    + tauto.
    + intros [Heq|Hin]; [tauto|]. destruct (IH Hin); tauto.
Qed.

Lemma set_well_formed (d : list (K * V)) k v :
  well_formed d -> well_formed (Dict.set d k v).
Proof.
  unfold well_formed. induction d as [|[k0 v0] d IH]; simpl; intro Hwf.
  - repeat constructor. simpl. tauto.
  - inversion Hwf as [|? ? Hnotin Hwf']; subst.
    destruct (key_eqb_spec k k0) as [->|Hne]; simpl.
    + constructor; assumption.
    + constructor; [|auto]. intro Hin.
      destruct (keys_set _ _ _ _ Hin) as [Heq|Hin']; [congruence | tauto].
Qed.
End DictMore.

(** ** The internal token *)

Lemma validate_internal_token_cases (secret : string) (token : option string) :
  validate_internal_token secret token = inr true
  \/ exists detail,
       validate_internal_token secret token = inl (HTTPException 403 detail).
Proof.
  unfold validate_internal_token.
  destruct token as [t|]; [|right; eauto].
  destruct (negb (truthy t)); [right; eauto|].
  destruct (negb (t =? secret)%string); [right; eauto | now left].
Qed.

(** A token is accepted exactly when it is present, not empty and equal to
    the configured secret; anything else is a 403.  In particular an empty
    secret locks every caller out. *)
Theorem token_accepted_iff (secret : string) (token : option string) :
  (validate_internal_token secret token = inr true
   <-> token = Some secret /\ secret <> "")
  /\ (validate_internal_token secret token = inr true
      \/ exists detail,
           validate_internal_token secret token = inl (HTTPException 403 detail)).
Proof.
  split; [|apply validate_internal_token_cases].
  unfold validate_internal_token, truthy.
  destruct token as [t|].
  - destruct (String.eqb_spec t "") as [->|Hne]; simpl.
    + split; [discriminate|]. intros [Heq Hs]. congruence.
    + destruct (String.eqb_spec t secret) as [->|Hs]; simpl.
      * split; auto.
      * split; [discriminate|]. intros [Heq _]. congruence.
  - split; [discriminate|]. intros [Heq _]. discriminate.
Qed.

Section EndpointFacts.
Variable env : Env.
Variable secret : string.

(** The three mutating endpoints do nothing at all for a caller whose
    token is not accepted: the answer is the 403 of the validation, no
    provider call is made and the state of the process is untouched.  With
    an accepted token each endpoint is the pool operation behind it. *)
Theorem endpoints_guarded (token : option string) (m : Machine)
    (request : ExecutionRequest.t) (srequest : SessionRequest.t)
    (session_id : string) :
  (validate_internal_token secret token <> inr true ->
   exists detail,
     execute_code env secret request token m
       = (inl (HTTPException 403 detail), m)
     /\ create_session env secret srequest token m
        = (inl (HTTPException 403 detail), m)
     /\ end_session env secret session_id token m
        = (inl (HTTPException 403 detail), m))
  /\ (validate_internal_token secret token = inr true ->
      execute_code env secret request token m
        = execute_code_in_sandbox env request m
      /\ create_session env secret srequest token m
         = create_session_with_sandbox env srequest m
      /\ end_session env secret session_id token m
         = end_session_and_return_sandbox env session_id m).
Proof.
  unfold execute_code, create_session, end_session, bind, call.
  destruct (validate_internal_token_cases secret token) as [Hok|[detail Hbad]].
  - rewrite Hok. split; [intro Hno; contradiction | auto].
  - rewrite Hbad. split; [intros _; exists detail; auto | discriminate].
Qed.
End EndpointFacts.

Lemma endpoints_guarded_witness :
  exists detail,
    execute_code Examples.steady_env MoreExamples.secret
      (Examples.request "print(1+1)" "python" 30 None) (Some "guess")
      initial_machine
    = (inl (HTTPException 403 detail), initial_machine).
Proof.
  destruct (@endpoints_guarded Examples.steady_env MoreExamples.secret
              (Some "guess") initial_machine
              (Examples.request "print(1+1)" "python" 30 None)
              (SessionRequest.make "python" "alice") "s1") as [Hbad _].
  destruct Hbad as (detail & H1 & _); [discriminate|].
  exists detail. exact H1.
Defined.

(** ** The coordinator, continued *)

Section CoordinatorMore.
Variable env : Env.

(** An execute that resolves to a session never touches the shared
    structures, whatever happens to the code it runs (result, timeout,
    unknown language, failed file write, provider error): queues, active
    set, registry, user index, metadata and scheduled returns are as
    before, and nothing is closed. *)
Theorem session_execute_never_touches_pool request m sandbox sid :
  session_binding request m = Some (sandbox, sid) ->
  pool_state (snd (execute_code_in_sandbox env request m)) = pool_state m
  /\ closes (snd (execute_code_in_sandbox env request m)) = closes m.
Proof.
  intro Hb. rewrite (execute_on_session env _ _ Hb).
  pose proof (keeps_run_handler env quiet_pool_state request sandbox
                (validated_timeout env request) m) as Hp.
  pose proof (keeps_run_handler env quiet_closes request sandbox
                (validated_timeout env request) m) as Hc.
  destruct (run_handler env request sandbox (validated_timeout env request) m)
    as [[e|result] m']; simpl in *.
  - destruct (is_TimeoutError e); [|destruct (is_Exception e)]; auto.
  - auto.
Qed.
End CoordinatorMore.

Lemma session_execute_never_touches_pool_witness :
  let request := Examples.request "puts 1" "ruby" 30 (Some "s1") in
  session_binding request Examples.one_session = Some (0%nat, "s1")
  /\ pool_state (snd (execute_code_in_sandbox Examples.steady_env request
                        Examples.one_session))
     = pool_state Examples.one_session.
Proof.
  split; [reflexivity|].
  apply (@session_execute_never_touches_pool Examples.steady_env
           (Examples.request "puts 1" "ruby" 30 (Some "s1"))
           Examples.one_session 0%nat "s1").
  reflexivity.
Defined.

Lemma quiet_scheduled : quiet scheduled.
Proof. split; intros; reflexivity. Qed.

Lemma quiet_active : quiet active_sandboxes.
Proof. split; intros; reflexivity. Qed.

Lemma quiet_sessions : quiet session_sandboxes.
Proof. split; intros; reflexivity. Qed.

Lemma quiet_user_sessions : quiet user_sessions.
Proof. split; intros; reflexivity. Qed.

Section EphemeralFacts.
Variable env : Env.

(** Checkout touches the idle queues only. *)
Lemma keeps_manage_sandbox_pool {X} (view : Machine -> X) language :
  quiet view ->
  (forall a m, view (with_available a m) = view m) ->
  keeps view (manage_sandbox_pool env language).
Proof.
  intros Hq Hav m.
  destruct (checkout_cases env language m) as [(sb & rest & _ & Hrun)|[Hempty _]].
  - rewrite Hrun. apply Hav.
  - rewrite (checkout_miss_creates env _ _ Hempty).
    now apply keeps_create_sandbox.
Qed.

Lemma falsy_session_unbound request m :
  truthy_opt (ExecutionRequest.session_id request) = false ->
  session_binding request m = None.
Proof.
  unfold truthy_opt, session_binding.
  destruct (ExecutionRequest.session_id request) as [s|]; [|reflexivity].
  now intros ->.
Qed.

(** An execute without session, once it holds a sandbox, always hands it
    back: the sandbox is recorded in the Active Ephemeral Set under the
    fresh id, the caller gets an answer (a result, a timeout or an error
    text, never an HTTP error) and exactly one return to the pool, with
    reset, is scheduled.  Only a cancellation of the request itself lets an
    exception out, and then nothing is scheduled. *)
Theorem ephemeral_execute_schedules_one_return request m sandbox sandbox_id m1 :
  truthy_opt (ExecutionRequest.session_id request) = false ->
  acquire_sandbox env request m = (inr (sandbox, sandbox_id), m1) ->
  let outcome := execute_code_in_sandbox env request m in
  Dict.get (active_sandboxes (snd outcome)) sandbox_id = Some sandbox
  /\ (((exists response, fst outcome = inr response)
       /\ scheduled (snd outcome)
          = (scheduled m ++ [return_task request sandbox_id sandbox])%list)
      \/ ((exists e, fst outcome = inl e /\ is_Exception e = false)
          /\ scheduled (snd outcome) = scheduled m)).
Proof.
  intros Hfalsy Hacq. cbv zeta.
  pose proof (falsy_session_unbound request m Hfalsy) as Hb.
  assert (Hm1 : Dict.get (active_sandboxes m1) sandbox_id = Some sandbox
                /\ scheduled m1 = scheduled m).
  { rewrite (acquire_unfold env _ _ Hb) in Hacq.
    pose proof (@keeps_manage_sandbox_pool _ scheduled
                  (ExecutionRequest.language request) quiet_scheduled
                  (fun _ _ => eq_refl) m) as Hs.
    destruct (manage_sandbox_pool env (ExecutionRequest.language request) m)
      as [[e|[sb|]] m0]; try discriminate Hacq.
    inversion Hacq; subst. simpl in *. split; [apply get_set_same | exact Hs]. }
  destruct Hm1 as [Hactive Hsched].
  rewrite execute_unfold, Hacq.
  pose proof (keeps_run_handler env quiet_pool_state request sandbox
                (validated_timeout env request) m1) as Hp.
  destruct (run_handler env request sandbox (validated_timeout env request) m1)
    as [[e|result] m2]; simpl in Hp;
    unfold pool_state in Hp; injection Hp as _ Hact _ _ _ Hsch.
  - unfold schedule_return, create_task, modify, return_task. rewrite Hfalsy.
    destruct (is_TimeoutError e); [|destruct (is_Exception e) eqn:He]; simpl;
      (split; [congruence|]);
      [left | left | right]; (split; [eauto | congruence]).
  - unfold schedule_return, create_task, modify, return_task. rewrite Hfalsy. simpl.
    split; [congruence|]. left. split; [eauto | congruence].
Qed.

(** With no idle sandbox for the language and a provider that refuses to
    create one, both an execute without session and a session creation
    fail with 503; the refused creation is the only provider call and the
    state of the pool manager is untouched. *)
Theorem no_sandbox_is_503 request srequest m e :
  session_binding request m = None ->
  queue (ExecutionRequest.language request) m = [] ->
  queue (SessionRequest.language srequest) m = [] ->
  deadline m = None ->
  reply env (history m) SandboxCreate = inl e ->
  is_Exception e = true ->
  let after :=
    with_world (history m ++ [SandboxCreate])
      (clock m + latency env (history m) SandboxCreate) m in
  execute_code_in_sandbox env request m
    = (inl (HTTPException 503 "No sandbox available"), after)
  /\ create_session_with_sandbox env srequest m
     = (inl (HTTPException 503 "No sandbox available"), after)
  /\ pool_state after = pool_state m.
Proof.
  intros Hb Hq Hsq Hd Hreply He. cbv zeta.
  assert (Hcreate : create_sandbox env m
                    = (inr None,
                       with_world (history m ++ [SandboxCreate])
                         (clock m + latency env (history m) SandboxCreate) m)).
  { unfold create_sandbox, try_except, bind, await. rewrite Hd, Hreply, He.
    reflexivity. }
  repeat split.
  - rewrite execute_unfold, (acquire_unfold env _ _ Hb).
    rewrite (checkout_miss_creates env _ _ Hq), Hcreate. reflexivity.
  - unfold create_session_with_sandbox, bind.
    rewrite (checkout_miss_creates env _ _ Hsq), Hcreate. reflexivity.
Qed.
End EphemeralFacts.

Lemma ephemeral_execute_schedules_one_return_witness :
  let request := Examples.request "print(1+1)" "python" 30 None in
  truthy_opt (ExecutionRequest.session_id request) = false
  /\ scheduled (snd (execute_code_in_sandbox Examples.steady_env request
                       Examples.warm_pool))
     = [return_task request (Examples.uuid_stream 0) 0%nat].
Proof.
  split; [reflexivity|].
  edestruct (@ephemeral_execute_schedules_one_return Examples.steady_env
               (Examples.request "print(1+1)" "python" 30 None)
               Examples.warm_pool) as [_ H]; [reflexivity | reflexivity |].
  reflexivity.
Defined.

Lemma no_sandbox_is_503_witness :
  let request := Examples.request "print(1+1)" "python" 30 None in
  queue "python" initial_machine = []
  /\ reply MoreExamples.no_sandbox_env [] SandboxCreate
     = inl (ProviderError "quota exceeded")
  /\ fst (execute_code_in_sandbox MoreExamples.no_sandbox_env request
            initial_machine)
     = inl (HTTPException 503 "No sandbox available").
Proof.
  split; [reflexivity|]. split; [reflexivity|].
  destruct (@no_sandbox_is_503 MoreExamples.no_sandbox_env
              (Examples.request "print(1+1)" "python" 30 None)
              (SessionRequest.make "python" "alice") initial_machine
              (ProviderError "quota exceeded")
              eq_refl eq_refl eq_refl eq_refl eq_refl eq_refl) as [H _].
  rewrite H. reflexivity.
Defined.

(** ** File staging and the handlers *)

Section StagingFacts.
Variable env : Env.

Lemma await_history (c : Call) m :
  history (snd (await env c m)) = (history m ++ [c])%list.
Proof.
  unfold await. destruct (deadline m) as [d|]; [destruct (d <=? _)|]; reflexivity.
Qed.

(** The writes of a staging loop are logged in the order of the files, up
    to and including the first one that fails. *)
Lemma staging_log sandbox (files : list (string * string)) m :
  let staging :=
    for_each files
      (fun '(file_path, file_content) =>
         await env (FilesystemWrite sandbox file_path file_content)) m in
  exists k, (k <= List.length files)%nat
    /\ history (snd staging)
       = (history m ++ map (stage_call sandbox) (firstn k files))%list
    /\ (forall u, fst staging = inr u -> k = List.length files).
Proof.
  cbv zeta. revert m. induction files as [|[p c] files IH]; intro m; simpl.
  - exists 0%nat. rewrite app_nil_r. auto.
  - unfold bind.
    pose proof (await_history (FilesystemWrite sandbox p c) m) as Hh.
    destruct (await env (FilesystemWrite sandbox p c) m) as [[e|[]] m1];
      simpl in Hh.
    + exists 1%nat. simpl. split; [lia|]. split; [exact Hh | discriminate].
    + destruct (IH m1) as (k & Hk & Hlog & Hall).
      exists (S k). simpl. split; [lia|]. split.
      * rewrite Hlog, Hh, <- app_assoc. reflexivity.
      * intros u Hu. f_equal. eauto.
Qed.

Lemma run_handler_unfold request sandbox timeout m files h :
  Dict.get _language_handlers (ExecutionRequest.language request) = Some h ->
  ExecutionRequest.files request = Some files ->
  run_handler env request sandbox timeout m
  = match
      for_each files
        (fun '(file_path, file_content) =>
           await env (FilesystemWrite sandbox file_path file_content)) m
    with
    | (inr _, m1) =>
        wait_for (handler_execute env h sandbox (ExecutionRequest.code request))
          timeout m1
    | (inl e, m1) => (inl e, m1)
    end.
Proof.
  intros Hh Hfiles. unfold run_handler, get_language_handler.
  rewrite Hh, Hfiles. unfold bind, ret, time_time.
  destruct (for_each files _ m) as [[e|[]] m1]; reflexivity.
Qed.

(** Files are staged before the code runs, in the order the request lists
    them.  If every write succeeds, the handler starts (under the deadline)
    in the state the last write left; if a write fails, the request stops
    there with that error: the remaining files are not written and the
    handler is never called. *)
Theorem files_staged_before_run request sandbox timeout m files h :
  Dict.get _language_handlers (ExecutionRequest.language request) = Some h ->
  ExecutionRequest.files request = Some files ->
  let staging :=
    for_each files
      (fun '(file_path, file_content) =>
         await env (FilesystemWrite sandbox file_path file_content)) m in
  exists k, (k <= List.length files)%nat
    /\ history (snd staging)
       = (history m ++ map (stage_call sandbox) (firstn k files))%list
    /\ match fst staging with
       | inr _ =>
           k = List.length files
           /\ run_handler env request sandbox timeout m
              = wait_for (handler_execute env h sandbox
                            (ExecutionRequest.code request))
                  timeout (snd staging)
       | inl e => run_handler env request sandbox timeout m = (inl e, snd staging)
       end.
Proof.
  intros Hh Hfiles. cbv zeta.
  destruct (staging_log sandbox files m) as (k & Hk & Hlog & Hall).
  exists k. split; [exact Hk|]. split; [exact Hlog|].
  rewrite (run_handler_unfold _ _ _ _ Hh Hfiles).
  destruct (for_each files _ m) as [[e|[]] m1]; simpl fst in *; simpl snd in *.
  - reflexivity.
  - split; [eauto | reflexivity].
Qed.

(** A handler talks to its sandbox and to nothing else: whichever language
    and whatever the provider answers, it leaves the shared structures of
    the pool manager alone and never closes a sandbox. *)
Theorem handlers_leave_pool_alone (h : LanguageHandler) sandbox code m :
  pool_state (snd (handler_execute env h sandbox code m)) = pool_state m
  /\ closes (snd (handler_execute env h sandbox code m)) = closes m.
Proof.
  split.
  - apply (keeps_handler_execute env quiet_pool_state).
  - apply (keeps_handler_execute env quiet_closes).
Qed.

(** When the compiler exits with code 0, [execute_c] starts the executable
    it has just built and answers with that program's stdout, stderr and
    exit code (whatever the code is); what the compiler printed is dropped.
    The provider sees the write, the compilation and the run, in this
    order. *)
Theorem compiled_program_is_run
    (sandbox : Sandbox) (code : string) (m m1 m2 m3 m4 m5 : Machine)
    (compile_process run_process : Process)
    (compile_result run_result : ProcessOutput) :
  let file_id := substring 0 8 (uuid4 env (uuids m)) in
  let source_file := "/tmp/program_" ++ file_id ++ ".c" in
  let executable := "/tmp/program_" ++ file_id in
  let write := FilesystemWrite sandbox source_file code in
  let gcc := StartCommand sandbox ("gcc -o " ++ executable ++ " " ++ source_file) in
  await env write (with_uuids (S (uuids m)) m) = (inr tt, m1) ->
  await env gcc m1 = (inr compile_process, m2) ->
  await env (ProcessWait compile_process) m2 = (inr compile_result, m3) ->
  proc_exit_code compile_result = 0 ->
  await env (StartCommand sandbox executable) m3 = (inr run_process, m4) ->
  await env (ProcessWait run_process) m4 = (inr run_result, m5) ->
  execute_c env sandbox code m
  = (inr (ExecutionResult.make (stdout run_result) (Some (stderr run_result))
            (proc_exit_code run_result)), m5)
  /\ history m5
     = (history m ++ [write; gcc; ProcessWait compile_process;
                      StartCommand sandbox executable;
                      ProcessWait run_process])%list.
Proof.
  intros file_id source_file executable write gcc Hwrite Hgcc Hwait Hcode Hrun Hrwait.
  split.
  - unfold execute_c, bind at 1. unfold uuid4_str at 1.
    fold file_id. fold source_file. fold executable.
    unfold bind at 1. fold write. rewrite Hwrite.
    unfold bind at 1. fold gcc. rewrite Hgcc.
    unfold bind at 1. rewrite Hwait. rewrite Hcode.
    change (negb (0 =? 0)) with false. cbv iota.
    unfold bind at 1. rewrite Hrun.
    unfold bind at 1. rewrite Hrwait. reflexivity.
  - pose proof (await_history write (with_uuids (S (uuids m)) m)) as H1.
    pose proof (await_history gcc m1) as H2.
    pose proof (await_history (ProcessWait compile_process) m2) as H3.
    pose proof (await_history (StartCommand sandbox executable) m3) as H4.
    pose proof (await_history (ProcessWait run_process) m4) as H5.
    rewrite Hwrite in H1. rewrite Hgcc in H2. rewrite Hwait in H3.
    rewrite Hrun in H4. rewrite Hrwait in H5. simpl in *.
    rewrite H5, H4, H3, H2, H1, <- !app_assoc. reflexivity.
Qed.
End StagingFacts.

Lemma files_staged_before_run_witness :
  let files := [("/tmp/a.txt", "hi"); ("/tmp/b.txt", "x"); ("/tmp/c.txt", "y")] in
  let request := MoreExamples.request_with_files files in
  let outcome :=
    run_handler MoreExamples.write_failing_env request 7%nat 10 initial_machine in
  Dict.get _language_handlers (ExecutionRequest.language request) = Some BashHandler
  /\ fst outcome = inl (ProviderError "disk full")
  /\ history (snd outcome)
     = [FilesystemWrite 7%nat "/tmp/a.txt" "hi"; FilesystemWrite 7%nat "/tmp/b.txt" "x"].
Proof.
  split; [reflexivity|].
  destruct (@files_staged_before_run MoreExamples.write_failing_env
              (MoreExamples.request_with_files
                 [("/tmp/a.txt", "hi"); ("/tmp/b.txt", "x"); ("/tmp/c.txt", "y")])
              7%nat 10 initial_machine _ BashHandler eq_refl eq_refl)
    as (k & _ & _ & Hrun).
  simpl in Hrun. rewrite Hrun. split; reflexivity.
Defined.

Lemma compiled_program_is_run_witness :
  fst (execute_c Examples.steady_env 0%nat "int main(){ return 0; }" initial_machine)
  = inr (ExecutionResult.make "2" (Some "") 0).
Proof.
  edestruct (@compiled_program_is_run Examples.steady_env 0%nat
               "int main(){ return 0; }" initial_machine) as [Hrun _];
    [reflexivity | reflexivity | reflexivity | reflexivity
     | reflexivity | reflexivity |].
  rewrite Hrun. reflexivity.
Defined.

(** ** Sessions *)

Section SessionFacts.
Variable env : Env.

(** A view that does not look at the provider's log keeps through any
    provider call, [close] included. *)
Lemma keeps_await_blind {X} (view : Machine -> X) (c : Call) :
  (forall h t m, view (with_world h t m) = view m) ->
  keeps view (await env c).
Proof.
  intros Hblind m. unfold await.
  destruct (deadline m) as [d|]; [destruct (d <=? _)|]; apply Hblind.
Qed.

Lemma create_session_unfold srequest m :
  create_session_with_sandbox env srequest m
  = match manage_sandbox_pool env (SessionRequest.language srequest) m with
    | (inr (Some sandbox), m0) =>
        let session_id := uuid4 env (uuids m0) in
        let user_id := SessionRequest.user_id srequest in
        (inr (SessionInfo.make session_id (SessionRequest.language srequest)
                "Session created successfully"),
         with_metadata
           (Dict.set (metadata m0) sandbox
              (Metadata.make (Some (SessionRequest.language srequest))
                 (Some user_id) (Some (clock m0))))
           (with_user_sessions
              (Dict.set (user_sessions m0) user_id
                 ((match Dict.get (user_sessions m0) user_id with
                   | Some l => l
                   | None => []
                   end) ++ [session_id])%list)
              (with_sessions (Dict.set (session_sandboxes m0) session_id sandbox)
                 (with_uuids (S (uuids m0)) m0))))
    | (inr None, m0) => (inl (HTTPException 503 "No sandbox available"), m0)
    | (inl e, m0) => (inl e, m0)
    end.
Proof.
  unfold create_session_with_sandbox. unfold bind at 1.
  destruct (manage_sandbox_pool env (SessionRequest.language srequest) m)
    as [[e|[sandbox|]] m0]; reflexivity.
Qed.


Lemma keeps_enqueue_block {X} (view : Machine -> X) {B} (before : M B)
    language sandbox :
  (forall h t m, view (with_world h t m) = view m) ->
  (forall a m, view (with_available a m) = view m) ->
  keeps view before ->
  keeps view (try_except (before ;; append_available language sandbox)
                (fun _ => await env (SandboxClose sandbox))).
Proof.
  intros Hblind Hav Hbefore. apply keeps_try_except.
  - apply keeps_bind; [assumption|]. intros _. unfold append_available.
    apply keeps_modify. intro m. apply Hav.
  - intros _. exact (@keeps_await_blind _ view (SandboxClose sandbox) Hblind).
Qed.

(** Ending a session takes it out of the registry, whatever happens to
    the sandbox afterwards. *)
Lemma end_session_registry session_id m :
  session_sandboxes (snd (end_session_and_return_sandbox env session_id m))
  = Dict.pop (session_sandboxes m) session_id.
Proof.
  rewrite end_session_unfold.
  destruct (Dict.get (session_sandboxes m) session_id) as [sandbox|] eqn:Hget.
  - cbv zeta. destruct (Dict.get (metadata m) sandbox) as [md|]; [|reflexivity].
    rewrite view_after_bind by (intro; apply keeps_ret).
    match goal with
    | |- session_sandboxes (snd (try_except ?b ?h ?m2)) = _ =>
        transitivity (session_sandboxes m2)
    end.
    + apply (@keeps_enqueue_block _ session_sandboxes);
        [reflexivity | reflexivity | apply (keeps_reset_sandbox env _ quiet_sessions)].
    + destruct (Metadata.user_id md) as [u|]; [|reflexivity].
      destruct (truthy u); [|reflexivity].
      destruct (Dict.get (user_sessions m) u); reflexivity.
  - simpl. symmetry.
    assert (Hgen : forall (d : list (string * Sandbox)),
               Dict.get d session_id = None -> Dict.pop d session_id = d).
    { induction d as [|[k v] d IH]; simpl; [reflexivity|].
      destruct (String.eqb session_id k); [discriminate|].
      intro Hg. now rewrite IH. }
    now apply Hgen.
Qed.

(** Ending a session twice: whatever the first call did, the second one
    is answered 404 and changes nothing. *)
Theorem second_end_session_is_404 session_id m :
  well_formed (session_sandboxes m) ->
  let m1 := snd (end_session_and_return_sandbox env session_id m) in
  end_session_and_return_sandbox env session_id m1
  = (inl (HTTPException 404 "Session not found"), m1).
Proof.
  intros Hwf. cbv zeta.
  pose proof (end_session_registry session_id m) as Hreg.
  set (m1 := snd (end_session_and_return_sandbox env session_id m)) in *.
  rewrite end_session_unfold, Hreg, (get_pop_same _ Hwf). reflexivity.
Qed.

(** A return takes the id out of the Active Ephemeral Set when it is there
    and leaves the set alone otherwise. *)
Lemma return_active sandbox_id sandbox language reset m :
  active_sandboxes (snd (return_sandbox_to_pool env sandbox_id sandbox language reset m))
  = if Dict.contains (active_sandboxes m) sandbox_id
    then Dict.pop (active_sandboxes m) sandbox_id
    else active_sandboxes m.
Proof.
  rewrite return_unfold.
  destruct (Dict.contains (active_sandboxes m) sandbox_id); [|reflexivity].
  apply (@keeps_enqueue_block _ active_sandboxes _
           (if reset then _ <- reset_sandbox env sandbox ;; ret tt else ret tt));
    [reflexivity | reflexivity | apply (keeps_optional_reset env _ _ quiet_active)].
Qed.

(** Returning twice: a return whose id is no longer in the Active
    Ephemeral Set does nothing, so running a return a second time (for
    whatever sandbox and language it names) cannot put a sandbox in a
    queue twice. *)
Theorem second_return_is_noop sandbox_id sandbox language reset
    sandbox' language' reset' m :
  well_formed (active_sandboxes m) ->
  let m1 := snd (return_sandbox_to_pool env sandbox_id sandbox language reset m) in
  return_sandbox_to_pool env sandbox_id sandbox' language' reset' m1 = (inr tt, m1).
Proof.
  intros Hwf. cbv zeta.
  pose proof (return_active sandbox_id sandbox language reset m) as Hact.
  set (m1 := snd (return_sandbox_to_pool env sandbox_id sandbox language reset m)) in *.
  rewrite return_unfold.
  assert (Hgone : Dict.contains (active_sandboxes m1) sandbox_id = false).
  { rewrite Hact. unfold Dict.contains.
    destruct (Dict.get (active_sandboxes m) sandbox_id) eqn:Hget.
    - now rewrite (get_pop_same _ Hwf).
    - now rewrite Hget. }
  now rewrite Hgone.
Qed.
End SessionFacts.


Lemma second_end_session_is_404_witness :
  well_formed (session_sandboxes Examples.one_session)
  /\ fst (end_session_and_return_sandbox Examples.steady_env "s1"
            (step Examples.steady_env (EndSession "s1") Examples.one_session))
     = inl (HTTPException 404 "Session not found").
Proof.
  assert (Hwf : well_formed (session_sandboxes Examples.one_session)).
  { repeat constructor. simpl. tauto. }
  split; [exact Hwf|].
  unfold step.
  rewrite (@second_end_session_is_404 Examples.steady_env "s1"
             Examples.one_session Hwf).
  reflexivity.
Defined.

Lemma second_return_is_noop_witness :
  well_formed (active_sandboxes Examples.one_active)
  /\ available_sandboxes
       (snd (return_sandbox_to_pool Examples.steady_env "e1" 7%nat "python" true
               (snd (return_sandbox_to_pool Examples.steady_env "e1" 7%nat
                       "python" true Examples.one_active))))
     = [("python", [7%nat])].
Proof.
  assert (Hwf : well_formed (active_sandboxes Examples.one_active)).
  { repeat constructor. simpl. tauto. }
  split; [exact Hwf|].
  rewrite (@second_return_is_noop Examples.steady_env "e1" 7%nat "python" true
             7%nat "python" true Examples.one_active Hwf).
  reflexivity.
Defined.

(** ** What closes a sandbox *)

Section CloseFacts.
Variable env : Env.

Lemma acquire_keeps_closes request :
  keeps closes (acquire_sandbox env request).
Proof.
  pose proof quiet_closes as Hq.
  intro m. unfold acquire_sandbox. unfold bind at 1. unfold get_machine at 1.
  destruct (session_binding request m); [reflexivity|].
  revert m. apply keeps_bind.
  - apply keeps_manage_sandbox_pool; [assumption | reflexivity].
  - intros [sandbox|]; frame.
Qed.

Lemma execute_keeps_closes request :
  keeps closes (execute_code_in_sandbox env request).
Proof.
  intro m. rewrite execute_unfold.
  pose proof (acquire_keeps_closes request m) as Hacq.
  destruct (acquire_sandbox env request m) as [[e|[sandbox sandbox_id]] m1];
    simpl in Hacq; [exact Hacq|].
  pose proof (keeps_run_handler env quiet_closes request sandbox
                (validated_timeout env request) m1) as Hrun.
  assert (Hs : forall m2, closes (snd (schedule_return request sandbox_id sandbox m2))
                          = closes m2).
  { intro m2. unfold schedule_return, create_task.
    destruct (truthy_opt _); reflexivity. }
  destruct (run_handler env request sandbox (validated_timeout env request) m1)
    as [[e|result] m2]; simpl in Hrun.
  - destruct (is_TimeoutError e); [|destruct (is_Exception e)]; simpl;
      rewrite ?Hs; congruence.
  - simpl. rewrite Hs. congruence.
Qed.

Lemma create_session_keeps_closes srequest :
  keeps closes (create_session_with_sandbox env srequest).
Proof.
  intro m. rewrite create_session_unfold.
  pose proof (@keeps_manage_sandbox_pool env _ closes
                (SessionRequest.language srequest) quiet_closes
                (fun _ _ => eq_refl) m) as Hm.
  destruct (manage_sandbox_pool env (SessionRequest.language srequest) m)
    as [[e|[sandbox|]] m0]; exact Hm.
Qed.

(** The enqueueing block closes nothing when what precedes the append lets
    no ordinary exception out. *)
Lemma enqueue_block_never_closes {B} (before : M B) language sandbox m :
  keeps closes before ->
  (forall e m', before m = (inl e, m') -> is_Exception e = false) ->
  closes (snd (try_except (before ;; append_available language sandbox)
                 (fun _ => await env (SandboxClose sandbox)) m))
  = closes m.
Proof.
  intros Hkeep Hraise. unfold try_except, bind. specialize (Hkeep m).
  destruct (before m) as [[e|b] m1] eqn:Hb; simpl in *.
  - rewrite (Hraise e m1 eq_refl). exact Hkeep.
  - exact Hkeep.
Qed.

Lemma end_session_never_closes session_id m :
  closes (snd (end_session_and_return_sandbox env session_id m)) = closes m.
Proof.
  rewrite end_session_unfold.
  destruct (Dict.get (session_sandboxes m) session_id) as [sandbox|]; [|reflexivity].
  cbv zeta. destruct (Dict.get (metadata m) sandbox) as [md|]; [|reflexivity].
  rewrite view_after_bind by (intro; apply keeps_ret).
  rewrite enqueue_block_never_closes.
  - destruct (Metadata.user_id md) as [u|]; [|reflexivity].
    destruct (truthy u); [|reflexivity].
    destruct (Dict.get (user_sessions m) u); reflexivity.
  - apply (keeps_reset_sandbox env _ quiet_closes).
  - intros e m'. apply reset_sandbox_raises.
Qed.

Lemma run_next_task_never_closes m :
  closes (snd (run_next_task env m)) = closes m.
Proof.
  rewrite run_next_task_unfold. destruct (scheduled m) as [|t rest]; [reflexivity|].
  now rewrite return_never_closes.
Qed.

(** Before shutdown nothing is ever closed: neither an execution (whatever
    its outcome), nor a session creation or end, nor a return to the pool
    makes a single [close] call.  A sandbox, once created, lives until the
    process shuts down. *)
Theorem only_shutdown_closes (ops : list Op) (m : Machine) :
  Forall (fun op => op <> Shutdown) ops ->
  closes (serve env ops m) = closes m.
Proof.
  revert m. induction ops as [|op ops IH]; intros m Hops; [reflexivity|].
  inversion Hops as [|? ? Hop Hrest]; subst.
  change (serve env (op :: ops) m) with (serve env ops (step env op m)).
  rewrite (IH _ Hrest).
  destruct op; unfold step.
  - apply execute_keeps_closes.
  - apply create_session_keeps_closes.
  - apply end_session_never_closes.
  - apply run_next_task_never_closes.
  - contradiction.
Qed.


End CloseFacts.

Lemma only_shutdown_closes_witness :
  let ops :=
    [ Execute (Examples.request "print(1)" "python" 30 None);
      RunTask;
      CreateSession (SessionRequest.make "python" "bob");
      EndSession "s1" ] in
  Forall (fun op => op <> Shutdown) ops
  /\ closes (serve Examples.reset_failing_env ops Examples.warm_pool) = [].
Proof.
  assert (H : Forall (fun op => op <> Shutdown)
                [ Execute (Examples.request "print(1)" "python" 30 None);
                  RunTask;
                  CreateSession (SessionRequest.make "python" "bob");
                  EndSession "s1" ]).
  { repeat constructor; discriminate. }
  split; [exact H|].
  rewrite (@only_shutdown_closes Examples.reset_failing_env _ Examples.warm_pool H).
  reflexivity.
Defined.


(** ** Outside a deadline *)

(** The deadline is armed by [asyncio.wait_for] only, which disarms it on
    the way out: every operation leaves it as it found it. *)
Ltac frame_deadline :=
  repeat first
    [ solve [auto with frame]
    | match goal with
      | |- keeps deadline (await ?e ?c) =>
          exact (@keeps_await_blind e _ deadline c (fun _ _ _ => eq_refl))
      | |- keeps deadline (uuid4_str _) => intro; reflexivity
      | |- keeps deadline (wait_for _ ?t) =>
          let m := fresh "m" in
          intro m; unfold wait_for;
          destruct (t <=? 0); [reflexivity|];
          match goal with
          | |- context [?b (with_deadline ?d m)] =>
              destruct (b (with_deadline d m)) as [[[]|] ?];
              try reflexivity;
              match goal with
              | |- context [if ?c then _ else _] => destruct c; reflexivity
              end
          end
      end
    | apply keeps_bind; [|intro]
    | apply keeps_try_except; [|intro]
    | apply keeps_for_each; intro
    | match goal with
      | |- keeps _ (if ?b then _ else _) => destruct b
      | |- keeps _ (match ?x with _ => _ end) => destruct x
      end ].

Section DeadlineFacts.
Variable env : Env.

Lemma keeps_deadline_create : keeps deadline (create_sandbox env).
Proof. unfold create_sandbox. frame_deadline. Qed.

Lemma keeps_deadline_reset sandbox : keeps deadline (reset_sandbox env sandbox).
Proof. unfold reset_sandbox. frame_deadline. Qed.

Lemma keeps_deadline_manage language :
  keeps deadline (manage_sandbox_pool env language).
Proof.
  intro m.
  destruct (checkout_cases env language m) as [(sb & rest & _ & Hrun)|[Hempty _]].
  - now rewrite Hrun.
  - rewrite (checkout_miss_creates env _ _ Hempty). apply keeps_deadline_create.
Qed.

Lemma keeps_deadline_acquire request :
  keeps deadline (acquire_sandbox env request).
Proof.
  intro m. unfold acquire_sandbox. unfold bind at 1. unfold get_machine at 1.
  destruct (session_binding request m); [reflexivity|].
  revert m. apply keeps_bind; [apply keeps_deadline_manage|].
  intros [sandbox|]; frame_deadline.
Qed.

Lemma keeps_deadline_run_handler request sandbox timeout :
  keeps deadline (run_handler env request sandbox timeout).
Proof. unfold run_handler, get_language_handler. frame_deadline. Qed.

Lemma keeps_deadline_execute request :
  keeps deadline (execute_code_in_sandbox env request).
Proof.
  intro m. rewrite execute_unfold.
  pose proof (keeps_deadline_acquire request m) as Hacq.
  destruct (acquire_sandbox env request m) as [[e|[sandbox sandbox_id]] m1];
    simpl in Hacq; [exact Hacq|].
  pose proof (keeps_deadline_run_handler request sandbox
                (validated_timeout env request) m1) as Hrun.
  assert (Hs : forall m2, deadline (snd (schedule_return request sandbox_id sandbox m2))
                          = deadline m2).
  { intro m2. unfold schedule_return, create_task.
    destruct (truthy_opt _); reflexivity. }
  destruct (run_handler env request sandbox (validated_timeout env request) m1)
    as [[e|result] m2]; simpl in Hrun.
  - destruct (is_TimeoutError e); [|destruct (is_Exception e)]; simpl;
      rewrite ?Hs; congruence.
  - simpl. rewrite Hs. congruence.
Qed.

(** A provider call outside any deadline gets the provider's answer. *)
Lemma await_no_deadline (c : Call) m :
  deadline m = None ->
  await env c m
  = (reply env (history m) c,
     with_world (history m ++ [c]) (clock m + latency env (history m) c) m).
Proof. intro Hd. unfold await. now rewrite Hd. Qed.

Hypothesis Hpolite : polite env.

(** Outside a deadline, resetting always comes back with an answer. *)
Lemma reset_sandbox_returns sandbox m :
  deadline m = None ->
  exists b,
    reset_sandbox env sandbox m
    = (inr b,
       with_world (history m ++ [StartCommand sandbox reset_command])
         (clock m + latency env (history m) (StartCommand sandbox reset_command)) m).
Proof.
  intro Hd. unfold reset_sandbox, try_except, bind.
  rewrite (await_no_deadline _ _ Hd).
  destruct (reply env (history m) (StartCommand sandbox reset_command))
    as [e|p] eqn:Hr.
  - rewrite (Hpolite _ _ Hr). exists false. reflexivity.
  - exists true. reflexivity.
Qed.

(** So does the enqueueing block: the sandbox joins its queue. *)
Lemma enqueue_block_returns (reset : bool) language sandbox m :
  deadline m = None ->
  exists m',
    try_except
      ((if reset then _ <- reset_sandbox env sandbox ;; ret tt else ret tt) ;;
       append_available language sandbox)
      (fun _ => await env (SandboxClose sandbox)) m
    = (inr tt, m')
    /\ available_sandboxes m' = pool_append (available_sandboxes m) language sandbox
    /\ active_sandboxes m' = active_sandboxes m
    /\ session_sandboxes m' = session_sandboxes m
    /\ user_sessions m' = user_sessions m
    /\ scheduled m' = scheduled m
    /\ deadline m' = None.
Proof.
  intro Hd. unfold try_except. unfold bind at 1.
  destruct reset.
  - unfold bind at 1. destruct (reset_sandbox_returns sandbox m Hd) as [b ->].
    eexists. split; [reflexivity|]. simpl. auto 10.
  - eexists. split; [reflexivity|]. simpl. auto 10.
Qed.

Lemma cancelled_ret {A} (a : A) : cancelled_by_deadline (ret a).
Proof.
  intros d m r m' Hd Hrun. inversion Hrun; subst. split; [assumption | discriminate].
Qed.

Lemma cancelled_bind {A B} (c : M A) (k : A -> M B) :
  cancelled_by_deadline c -> (forall a, cancelled_by_deadline (k a)) ->
  cancelled_by_deadline (bind c k).
Proof.
  intros Hc Hk d m r m' Hd. unfold bind.
  destruct (c m) as [[e|a] m1] eqn:Hcm; intro Hrun.
  - inversion Hrun; subst. destruct (Hc d m _ _ Hd Hcm) as [Hd1 Hcancel].
    split; [exact Hd1|]. intro Heq. apply Hcancel. congruence.
  - destruct (Hc d m _ _ Hd Hcm) as [Hd1 _]. exact (Hk a d m1 r m' Hd1 Hrun).
Qed.

Lemma cancelled_await (c : Call) : cancelled_by_deadline (await env c).
Proof.
  intros d m r m' Hd. unfold await. rewrite Hd.
  destruct (d <=? clock m + latency env (history m) c) eqn:Hfire;
    intro Hrun; inversion Hrun; subst; simpl.
  - split; [assumption|]. intros _. lia.
  - split; [assumption|]. intro Hr.
    pose proof (Hpolite _ _ Hr) as He. discriminate He.
Qed.

Lemma cancelled_uuid4_str : cancelled_by_deadline (uuid4_str env).
Proof.
  intros d m r m' Hd Hrun. inversion Hrun; subst.
  split; [assumption | discriminate].
Qed.

(** A handler is cancelled by its deadline and by nothing else. *)
Lemma cancelled_handler_execute h sandbox code :
  cancelled_by_deadline (handler_execute env h sandbox code).
Proof.
  destruct h; simpl;
    [unfold execute_python | unfold execute_node | unfold execute_bash
     | unfold execute_c];
    repeat first
      [ apply cancelled_ret
      | apply cancelled_uuid4_str
      | match goal with
        | |- cancelled_by_deadline (await env ?c) => exact (cancelled_await c)
        | |- cancelled_by_deadline (if ?b then _ else _) => destruct b
        end
      | apply cancelled_bind; [|intro] ].
Qed.

(** So awaiting a handler under a timeout lets ordinary exceptions out
    only: a cancellation is always the deadline's and becomes
    [TimeoutError]. *)
Lemma wait_for_handler_raises h sandbox code timeout m e m' :
  wait_for (handler_execute env h sandbox code) timeout m = (inl e, m') ->
  is_Exception e = true.
Proof.
  unfold wait_for. destruct (timeout <=? 0).
  { intro Heq. inversion Heq. reflexivity. }
  pose proof (cancelled_handler_execute h sandbox code) as Hsound.
  unfold cancelled_by_deadline in Hsound.
  specialize (Hsound (clock m + timeout)
                (with_deadline (Some (clock m + timeout)) m)).
  destruct (handler_execute env h sandbox code
              (with_deadline (Some (clock m + timeout)) m)) as [[e0|a] m0];
    [|discriminate].
  destruct (Hsound _ _ eq_refl eq_refl) as [_ Hfired].
  destruct e0; try (intro Heq; inversion Heq; reflexivity).
  assert (Hle : (clock m + timeout <=? clock m0) = true)
    by (apply Z.leb_le; auto).
  rewrite Hle. intro Heq. inversion Heq. reflexivity.
Qed.

Lemma staging_raises sandbox (files : list (string * string)) m e m' :
  deadline m = None ->
  for_each files
    (fun '(file_path, file_content) =>
       await env (FilesystemWrite sandbox file_path file_content)) m
  = (inl e, m') ->
  is_Exception e = true.
Proof.
  revert m. induction files as [|[p c] files IH]; intros m Hd; simpl.
  - discriminate.
  - unfold bind. rewrite (await_no_deadline _ _ Hd).
    destruct (reply env (history m) (FilesystemWrite sandbox p c)) as [e0|[]] eqn:Hr.
    + intro Heq. inversion Heq; subst. eapply Hpolite; eauto.
    + apply IH. exact Hd.
Qed.

(** Outside a deadline the [try] block lets ordinary exceptions out only,
    so the coordinator always catches them. *)
Lemma run_handler_raises request sandbox timeout m e m' :
  deadline m = None ->
  run_handler env request sandbox timeout m = (inl e, m') ->
  is_Exception e = true.
Proof.
  intro Hd. unfold run_handler, get_language_handler.
  destruct (Dict.get _language_handlers (ExecutionRequest.language request))
    as [h|].
  - unfold bind at 1. unfold ret at 1. unfold bind at 1.
    destruct (ExecutionRequest.files request) as [files|].
    + destruct (for_each files _ m) as [[e0|[]] m1] eqn:Hstage.
      * intro Heq. inversion Heq; subst. eapply staging_raises; eauto.
      * unfold bind, time_time. apply wait_for_handler_raises.
    + unfold ret at 1. unfold bind, time_time. apply wait_for_handler_raises.
  - unfold bind, raise. intro Heq. inversion Heq. reflexivity.
Qed.
End DeadlineFacts.

(** ** Round trips *)

Section RoundTrips.
Variable env : Env.
Hypothesis Hpolite : polite env.

Lemma end_session_returns session_id sandbox md m :
  deadline m = None ->
  Dict.get (session_sandboxes m) session_id = Some sandbox ->
  Dict.get (metadata m) sandbox = Some md ->
  exists m',
    end_session_and_return_sandbox env session_id m
    = (inr (true, "Session ended successfully"), m')
    /\ available_sandboxes m'
       = pool_append (available_sandboxes m)
           (match Metadata.language md with Some l => l | None => "python" end)
           sandbox
    /\ active_sandboxes m' = active_sandboxes m
    /\ session_sandboxes m' = Dict.pop (session_sandboxes m) session_id
    /\ scheduled m' = scheduled m
    /\ deadline m' = None.
Proof.
  intros Hd Hget Hmd. rewrite end_session_unfold, Hget. cbv zeta. rewrite Hmd.
  match goal with
  | |- context [bind (try_except _ _) _ ?x] => remember x as m2 eqn:Heqm2
  end.
  assert (Hm2 : deadline m2 = None
                /\ available_sandboxes m2 = available_sandboxes m
                /\ active_sandboxes m2 = active_sandboxes m
                /\ session_sandboxes m2 = Dict.pop (session_sandboxes m) session_id
                /\ scheduled m2 = scheduled m).
  { subst m2. destruct (Metadata.user_id md) as [u|]; [|auto].
    destruct (truthy u); [|auto].
    destruct (Dict.get (user_sessions m) u); auto. }
  clear Heqm2. destruct Hm2 as (Hd2 & Hav & Hact & Hses & Hsch).
  unfold bind at 1. unfold try_except. unfold bind at 1.
  destruct (reset_sandbox_returns Hpolite sandbox m2 Hd2) as [b ->].
  eexists. split; [reflexivity|]. simpl.
  rewrite Hav, Hact, Hses, Hsch. auto.
Qed.

Lemma queue_of_append (pool : list (string * list Sandbox)) language sandbox m m' l :
  available_sandboxes m = pool ->
  available_sandboxes m' = pool_append pool language sandbox ->
  queue l m'
  = if (language =? l)%string then (queue l m ++ [sandbox])%list else queue l m.
Proof.
  intros Hm Hm'. subst pool.
  exact (@queue_after_append m m' language sandbox l Hm').
Qed.

(** What a checkout leaves of the queues: the language's queue loses its
    head, which is the sandbox handed out when there was one. *)
Lemma checkout_queue language m sandbox m0 :
  manage_sandbox_pool env language m = (inr (Some sandbox), m0) ->
  queue language m0 = tl (queue language m)
  /\ (forall l, l <> language -> queue l m0 = queue l m)
  /\ (queue language m <> [] -> hd_error (queue language m) = Some sandbox).
Proof.
  intro Hrun.
  destruct (checkout_cases env language m)
    as [(sb & rest & Hget & Hpop)|[Hempty Hsame]].
  - rewrite Hpop in Hrun. inversion Hrun; subst sb m0. clear Hrun.
    assert (Hq : queue language m = sandbox :: rest)
      by (unfold queue; now rewrite Hget).
    split; [|split].
    + rewrite Hq. unfold queue. simpl. now rewrite get_set_same.
    + intros l Hne. unfold queue. simpl. rewrite get_set_other; auto.
    + intros _. now rewrite Hq.
  - rewrite Hrun in Hsame. simpl in Hsame.
    split; [|split].
    + rewrite Hempty. unfold queue in *. now rewrite Hsame.
    + intros l _. unfold queue. now rewrite Hsame.
    + intro Hne. contradiction.
Qed.

(** Creating a session and ending it again (outside any deadline, with a
    fresh session id): the end is answered with success, the registry and
    the Active Ephemeral Set are back to what they were, nothing has been
    closed, and the sandbox the session used (the former head of the
    language's queue, or a new one when the queue was empty) now stands at
    the tail of that queue; the other queues have not moved. *)
Theorem create_then_end_session srequest m info m1 :
  create_session_with_sandbox env srequest m = (inr info, m1) ->
  deadline m1 = None ->
  Dict.get (session_sandboxes m) (SessionInfo.session_id info) = None ->
  let language := SessionRequest.language srequest in
  exists sandbox m2,
    end_session_and_return_sandbox env (SessionInfo.session_id info) m1
    = (inr (true, "Session ended successfully"), m2)
    /\ session_sandboxes m2 = session_sandboxes m
    /\ active_sandboxes m2 = active_sandboxes m
    /\ queue language m2 = (tl (queue language m) ++ [sandbox])%list
    /\ (forall l, l <> language -> queue l m2 = queue l m)
    /\ (queue language m <> [] -> hd_error (queue language m) = Some sandbox)
    /\ closes m2 = closes m.
Proof.
  intros Hcreate Hd Hfresh. cbv zeta.
  pose proof (create_session_keeps_closes env srequest m) as Hc1.
  rewrite Hcreate in Hc1. simpl in Hc1.
  rewrite create_session_unfold in Hcreate.
  pose proof (@keeps_manage_sandbox_pool env _ active_sandboxes
                (SessionRequest.language srequest) quiet_active
                (fun _ _ => eq_refl) m) as Hact0.
  pose proof (@keeps_manage_sandbox_pool env _ session_sandboxes
                (SessionRequest.language srequest) quiet_sessions
                (fun _ _ => eq_refl) m) as Hses0.
  destruct (manage_sandbox_pool env (SessionRequest.language srequest) m)
    as [[e|[sandbox|]] m0] eqn:Hmanage; try discriminate Hcreate.
  destruct (checkout_queue _ _ Hmanage) as (Hq0 & Hother0 & Hhead).
  cbv zeta in Hcreate. inversion Hcreate; subst info m1; clear Hcreate.
  simpl in *.
  match goal with
  | |- context [end_session_and_return_sandbox env ?sid ?m1] =>
      destruct (@end_session_returns sid sandbox
                  (Metadata.make (Some (SessionRequest.language srequest))
                     (Some (SessionRequest.user_id srequest)) (Some (clock m0)))
                  m1 Hd)
        as (m2 & Hend & Hav & Hact & Hses & _ & _);
      [apply get_set_same | apply get_set_same |];
      pose proof (end_session_never_closes env sid m1) as Hc2
  end.
  rewrite Hend in Hc2. simpl in Hav, Hact, Hses, Hc2.
  exists sandbox, m2. split; [exact Hend|].
  split; [rewrite Hses, pop_set_fresh; congruence|].
  split; [congruence|].
  assert (Hqueue : forall l,
             queue l m2
             = if (SessionRequest.language srequest =? l)%string
               then (queue l m0 ++ [sandbox])%list else queue l m0).
  { intro l. exact (@queue_of_append _ _ sandbox m0 m2 l eq_refl Hav). }
  split; [rewrite Hqueue, String.eqb_refl, Hq0; reflexivity|].
  split.
  - intros l Hne. rewrite Hqueue.
    destruct (String.eqb_spec (SessionRequest.language srequest) l);
      [congruence | auto].
  - split; [exact Hhead | congruence].
Qed.

(** Outside a deadline, the scheduled return of a sandbox that is still
    in the Active Ephemeral Set moves it to the tail of its queue. *)
Lemma run_task_returns (task : Task) (rest : list Task) m :
  deadline m = None ->
  scheduled m = task :: rest ->
  Dict.contains (active_sandboxes m) (task_sandbox_id task) = true ->
  exists m',
    run_next_task env m = (inr tt, m')
    /\ available_sandboxes m'
       = pool_append (available_sandboxes m) (task_language task) (task_sandbox task)
    /\ active_sandboxes m' = Dict.pop (active_sandboxes m) (task_sandbox_id task)
    /\ session_sandboxes m' = session_sandboxes m
    /\ scheduled m' = rest
    /\ deadline m' = None.
Proof.
  intros Hd Hsched Hin. rewrite run_next_task_unfold, Hsched, return_unfold.
  change (active_sandboxes (with_scheduled rest m)) with (active_sandboxes m).
  rewrite Hin.
  destruct (@enqueue_block_returns env Hpolite (task_reset task)
              (task_language task) (task_sandbox task)
              (with_active (Dict.pop (active_sandboxes m) (task_sandbox_id task))
                 (with_scheduled rest m)) Hd)
    as (m' & Hret & Hav & Hact & Hses & _ & Hsch & Hd').
  exists m'. split; [exact Hret|]. simpl in *. auto 10.
Qed.

(** An execution without session followed by its scheduled return
    (outside any deadline, nothing else scheduled, fresh id): the caller
    is answered, the Active Ephemeral Set is back to what it was, no
    return is left pending, nothing has been closed, the registry is
    untouched and the sandbox stands at the tail of its language's queue. *)
Theorem execute_then_return request m sandbox sandbox_id m1 :
  truthy_opt (ExecutionRequest.session_id request) = false ->
  deadline m = None ->
  scheduled m = [] ->
  acquire_sandbox env request m = (inr (sandbox, sandbox_id), m1) ->
  Dict.get (active_sandboxes m) sandbox_id = None ->
  let language := ExecutionRequest.language request in
  let after := serve env [Execute request; RunTask] m in
  (exists response, fst (execute_code_in_sandbox env request m) = inr response)
  /\ active_sandboxes after = active_sandboxes m
  /\ scheduled after = []
  /\ session_sandboxes after = session_sandboxes m
  /\ queue language after = (tl (queue language m) ++ [sandbox])%list
  /\ (forall l, l <> language -> queue l after = queue l m)
  /\ closes after = closes m.
Proof.
  intros Hfalsy Hd Hsched Hacq Hfresh. cbv zeta.
  pose proof (falsy_session_unbound request m Hfalsy) as Hb.
  (* the checkout *)
  pose proof (keeps_deadline_acquire env request m) as Hd1.
  rewrite Hacq in Hd1. simpl in Hd1. rewrite Hd in Hd1.
  pose proof Hacq as Hacq'.
  rewrite (acquire_unfold env _ _ Hb) in Hacq'.
  pose proof (@keeps_manage_sandbox_pool env _ pool_state
                (ExecutionRequest.language request) quiet_pool_state) as Hm0.
  pose proof (@keeps_manage_sandbox_pool env _ active_sandboxes
                (ExecutionRequest.language request) quiet_active
                (fun _ _ => eq_refl) m) as Hact0.
  pose proof (@keeps_manage_sandbox_pool env _ session_sandboxes
                (ExecutionRequest.language request) quiet_sessions
                (fun _ _ => eq_refl) m) as Hses0.
  pose proof (@keeps_manage_sandbox_pool env _ scheduled
                (ExecutionRequest.language request) quiet_scheduled
                (fun _ _ => eq_refl) m) as Hsch0.
  clear Hm0.
  destruct (manage_sandbox_pool env (ExecutionRequest.language request) m)
    as [[e|[sb|]] m0] eqn:Hmanage; try discriminate Hacq'.
  inversion Hacq'; subst sb sandbox_id m1; clear Hacq'.
  destruct (checkout_queue _ _ Hmanage) as (Hq0 & Hother0 & _).
  simpl in Hact0, Hses0, Hsch0, Hd1.
  (* the run *)
  set (m1 := with_metadata _ _) in *.
  pose proof (keeps_run_handler env quiet_pool_state request sandbox
                (validated_timeout env request) m1) as Hp.
  pose proof (keeps_deadline_run_handler env request sandbox
                (validated_timeout env request) m1) as Hd2.
  pose proof (execute_keeps_closes env request m) as Hc1.
  assert (Hexec : exists response m2,
             execute_code_in_sandbox env request m
             = (inr response,
                with_scheduled [return_task request (uuid4 env (uuids m0)) sandbox] m2)
             /\ pool_state m2 = pool_state m1 /\ deadline m2 = None).
  { rewrite execute_unfold, Hacq.
    unfold schedule_return, create_task, modify. rewrite Hfalsy.
    destruct (run_handler env request sandbox (validated_timeout env request) m1)
      as [[e|result] m2] eqn:Hrun; simpl in Hp, Hd2;
      assert (Hs2 : scheduled m2 = [])
        by (unfold pool_state in Hp; injection Hp as _ _ _ _ _ Hs;
            rewrite Hs; subst m1; simpl; congruence).
    - pose proof (run_handler_raises Hpolite _ _ _ _
                    (Hd1 : deadline m1 = None) Hrun) as He.
      rewrite He. destruct (is_TimeoutError e); simpl; rewrite Hs2;
        eexists; exists m2; (split; [reflexivity|]); split; congruence.
    - simpl. rewrite Hs2.
      eexists; exists m2; (split; [reflexivity|]); split; congruence. }
  destruct Hexec as (response & m2 & Hexec & Hp2 & Hd3).
  rewrite Hexec in Hc1. simpl in Hc1.
  split; [rewrite Hexec; simpl; eauto|].
  (* the return *)
  change (serve env [Execute request; RunTask] m)
    with (snd (run_next_task env (snd (execute_code_in_sandbox env request m)))).
  rewrite Hexec. simpl snd.
  set (m2' := with_scheduled [return_task request (uuid4 env (uuids m0)) sandbox] m2).
  pose proof (run_next_task_never_closes env m2') as Hc2.
  unfold pool_state in Hp2. injection Hp2 as Hav2 Hact2 Hses2 _ _ _.
  assert (Hactive : active_sandboxes m2
                    = Dict.set (active_sandboxes m) (uuid4 env (uuids m0)) sandbox).
  { rewrite Hact2. subst m1. simpl. congruence. }
  destruct (@run_task_returns
              (return_task request (uuid4 env (uuids m0)) sandbox) [] m2')
    as (m3 & Hret & Hav3 & Hact3 & Hses3 & Hsch3 & _).
  { exact Hd3. }
  { reflexivity. }
  { subst m2'. simpl. unfold Dict.contains. now rewrite Hactive, get_set_same. }
  rewrite Hret in *. simpl snd in *.
  subst m2'. simpl in Hav3, Hact3, Hses3, Hc2.
  assert (Hqueue : forall l,
             queue l m3
             = if (ExecutionRequest.language request =? l)%string
               then (queue l m0 ++ [sandbox])%list else queue l m0).
  { intro l. apply (@queue_of_append (available_sandboxes m0) _ sandbox m0 m3 l eq_refl).
    rewrite Hav3, Hav2. subst m1. reflexivity. }
  split; [rewrite Hact3, Hactive, pop_set_fresh; auto|].
  split; [exact Hsch3|].
  split; [rewrite Hses3, Hses2; subst m1; simpl; congruence|].
  split; [rewrite Hqueue, String.eqb_refl, Hq0; reflexivity|].
  split.
  - intros l Hne. rewrite Hqueue.
    destruct (String.eqb_spec (ExecutionRequest.language request) l);
      [congruence | auto].
  - congruence.
Qed.
End RoundTrips.

Lemma steady_env_polite : polite Examples.steady_env.
Proof. intros h c e. destruct c; discriminate. Qed.

Lemma create_then_end_session_witness :
  let srequest := SessionRequest.make "python" "bob" in
  let created := create_session_with_sandbox Examples.steady_env srequest
                   Examples.warm_pool in
  polite Examples.steady_env
  /\ deadline (snd created) = None
  /\ Dict.get (session_sandboxes Examples.warm_pool) (Examples.uuid_stream 0) = None
  /\ exists m2,
       end_session_and_return_sandbox Examples.steady_env (Examples.uuid_stream 0)
         (snd created)
       = (inr (true, "Session ended successfully"), m2)
       /\ session_sandboxes m2 = session_sandboxes Examples.warm_pool
       /\ queue "python" m2 = [1%nat; 0%nat].
Proof.
  split; [exact steady_env_polite|]. split; [reflexivity|]. split; [reflexivity|].
  edestruct (@create_then_end_session Examples.steady_env steady_env_polite
               (SessionRequest.make "python" "bob") Examples.warm_pool)
    as (sandbox & m2 & Hend & Hses & _ & Hq & _ & Hhead & _);
    [reflexivity | reflexivity | reflexivity |].
  exists m2. split; [exact Hend|]. split; [exact Hses|].
  assert (Hs : Some 0%nat = Some sandbox) by (apply Hhead; discriminate).
  inversion Hs; subst sandbox. exact Hq.
Defined.

Lemma execute_then_return_witness :
  let request := Examples.request "print(1)" "python" 30 None in
  let after := serve Examples.steady_env [Execute request; RunTask]
                 Examples.warm_pool in
  scheduled Examples.warm_pool = []
  /\ Dict.get (active_sandboxes Examples.warm_pool) (Examples.uuid_stream 0) = None
  /\ active_sandboxes after = [("e1", 2%nat)]
  /\ queue "python" after = [1%nat; 0%nat].
Proof.
  split; [reflexivity|]. split; [reflexivity|].
  edestruct (@execute_then_return Examples.steady_env steady_env_polite
               (Examples.request "print(1)" "python" 30 None)
               Examples.warm_pool)
    as (_ & Hact & _ & _ & Hq & _);
    [reflexivity | reflexivity | reflexivity | reflexivity | reflexivity |].
  split; [exact Hact | exact Hq].
Defined.

(** ** Start-up *)

Section StartupFacts.
Variable env : Env.

Lemma pool_size_append (pool : list (string * list Sandbox)) language sandbox :
  pool_size (pool_append pool language sandbox) = S (pool_size pool).
Proof.
  unfold pool_size, pool_append.
  induction pool as [|[k q] pool IH]; simpl; [reflexivity|].
  destruct (String.eqb language k); simpl.
  - rewrite !length_app. simpl. lia.
  - rewrite !length_app, IH. lia.
Qed.

(** Outside a deadline, creating a sandbox always comes back, with a
    sandbox or with [None], after exactly one provider call. *)
Lemma create_sandbox_returns m :
  polite env -> deadline m = None ->
  exists r,
    create_sandbox env m
    = (inr r,
       with_world (history m ++ [SandboxCreate])
         (clock m + latency env (history m) SandboxCreate) m)
    /\ (always_creates env -> exists sandbox, r = Some sandbox).
Proof.
  intros Hpolite Hd. unfold create_sandbox, try_except, bind.
  rewrite (await_no_deadline env _ _ Hd).
  destruct (reply env (history m) SandboxCreate) as [e|sb] eqn:Hr.
  - rewrite (Hpolite _ _ _ Hr). exists None. split; [reflexivity|].
    intro Hall. destruct (Hall (history m)) as [sb Hsb]. congruence.
  - exists (Some sb). split; [reflexivity | eauto].
Qed.

Lemma prewarm_spec (n : nat) language pool m :
  polite env -> deadline m = None ->
  exists pool' m',
    prewarm env n language pool m = (inr pool', m')
    /\ history m' = (history m ++ repeat SandboxCreate n)%list
    /\ deadline m' = None
    /\ pool_state m' = pool_state m
    /\ (pool_size pool' <= pool_size pool + n)%nat
    /\ (forall l, language <> l -> Dict.get pool' l = Dict.get pool l)
    /\ (always_creates env ->
        forall q, Dict.get pool language = Some q ->
        exists added,
          List.length added = n
          /\ Dict.get pool' language = Some (q ++ added)%list).
Proof.
  intros Hpolite. revert pool m. induction n as [|n IH]; intros pool m Hd.
  - exists pool, m. simpl. rewrite app_nil_r.
    split; [reflexivity|]. split; [reflexivity|]. split; [assumption|].
    split; [reflexivity|]. split; [lia|]. split; [reflexivity|].
    intros _ q Hq. exists []. rewrite app_nil_r. auto.
  - simpl. unfold bind at 1.
    destruct (create_sandbox_returns m Hpolite Hd) as (r & -> & Hsome).
    set (m1 := with_world _ _ m).
    assert (Hstep : forall pool1,
               (pool_size pool1 <= S (pool_size pool))%nat ->
               (forall l, language <> l -> Dict.get pool1 l = Dict.get pool l) ->
               (always_creates env ->
                forall q, Dict.get pool language = Some q ->
                exists sb, Dict.get pool1 language = Some (q ++ [sb])%list) ->
               exists pool' m',
                 prewarm env n language pool1 m1 = (inr pool', m')
                 /\ history m' = (history m ++ repeat SandboxCreate (S n))%list
                 /\ deadline m' = None
                 /\ pool_state m' = pool_state m
                 /\ (pool_size pool' <= pool_size pool + S n)%nat
                 /\ (forall l, language <> l -> Dict.get pool' l = Dict.get pool l)
                 /\ (always_creates env ->
                     forall q, Dict.get pool language = Some q ->
                     exists added,
                       List.length added = S n
                       /\ Dict.get pool' language = Some (q ++ added)%list)).
    { intros pool1 Hsize Hother Hlang.
      destruct (IH pool1 m1 Hd)
        as (pool' & m' & Hrun & Hh & Hd' & Hp & Hs & Ho & Hfill).
      exists pool', m'. split; [exact Hrun|].
      split; [rewrite Hh; subst m1; simpl; now rewrite <- app_assoc|].
      split; [exact Hd'|]. split; [exact Hp|]. split; [lia|].
      split; [intros l Hne; rewrite Ho, Hother; auto|].
      intros Hall q Hq. destruct (Hlang Hall q Hq) as [sb Hsb].
      destruct (Hfill Hall _ Hsb) as (added & Hlen & Hget).
      exists (sb :: added). split; [simpl; lia|].
      rewrite Hget, <- app_assoc. reflexivity. }
    destruct r as [sandbox|].
    + apply Hstep.
      * rewrite pool_size_append. lia.
      * intros l Hne. unfold pool_append. now apply get_set_other.
      * intros _ q Hq. exists sandbox. unfold pool_append.
        now rewrite get_set_same, Hq.
    + apply Hstep; [lia | auto |].
      intros Hall. destruct (Hsome Hall) as [sb Hsb]. discriminate Hsb.
Qed.

Lemma prewarm_all_spec (n : nat) (languages : list string) pool m :
  polite env -> deadline m = None ->
  exists pool' m',
    prewarm_all env n languages pool m = (inr pool', m')
    /\ history m'
       = (history m ++ repeat SandboxCreate (n * List.length languages))%list
    /\ deadline m' = None
    /\ pool_state m' = pool_state m
    /\ (pool_size pool' <= pool_size pool + n * List.length languages)%nat
    /\ (forall l, ~ In l languages -> Dict.get pool' l = Dict.get pool l)
    /\ (always_creates env -> NoDup languages ->
        (forall l, In l languages -> Dict.get pool l = Some []) ->
        forall l, In l languages ->
                  exists q, Dict.get pool' l = Some q /\ List.length q = n).
Proof.
  intros Hpolite. revert pool m.
  induction languages as [|language rest IH]; intros pool m Hd.
  - exists pool, m. simpl. rewrite Nat.mul_0_r. simpl. rewrite app_nil_r.
    split; [reflexivity|]. split; [reflexivity|]. split; [assumption|].
    split; [reflexivity|]. split; [lia|]. split; [reflexivity|].
    intros _ _ _ l [].
  - simpl. unfold bind at 1.
    destruct (prewarm_spec n language pool m Hpolite Hd)
      as (pool1 & m1 & -> & Hh1 & Hd1 & Hp1 & Hs1 & Ho1 & Hfill1).
    destruct (IH pool1 m1 Hd1)
      as (pool' & m' & Hrun & Hh & Hd' & Hp & Hs & Ho & Hfill).
    exists pool', m'. split; [exact Hrun|].
    split.
    { rewrite Hh, Hh1, <- app_assoc, <- repeat_app. f_equal. f_equal. lia. }
    split; [exact Hd'|]. split; [congruence|]. split; [lia|].
    split.
    { intros l Hnot. rewrite Ho by (intro; apply Hnot; now right).
      apply Ho1. intro; subst. apply Hnot. now left. }
    intros Hall Hnodup Hempty l Hin.
    inversion Hnodup as [|? ? Hnotin Hnodup']; subst.
    destruct Hin as [->|Hin].
    + rewrite (Ho l Hnotin).
      destruct (Hfill1 Hall [] (Hempty l (or_introl eq_refl)))
        as (added & Hlen & Hget).
      exists added. split; assumption.
    + apply (Hfill Hall Hnodup'); [|exact Hin].
      intros l' Hin'. rewrite Ho1 by (intro; subst; contradiction).
      apply Hempty. now right.
Qed.

Lemma empty_queues_size (languages : list string) :
  forall d : list (string * list Sandbox),
    pool_size d = 0%nat ->
    pool_size (fold_left (fun d lang => Dict.set d lang ([] : list Sandbox))
                 languages d) = 0%nat.
Proof.
  induction languages as [|l languages IH]; intros d Hd; simpl; [exact Hd|].
  apply IH. revert Hd. unfold pool_size.
  induction d as [|[k q] d IHd]; simpl; [reflexivity|].
  rewrite length_app. intro Hd.
  destruct (String.eqb l k); simpl; [lia|].
  rewrite length_app, IHd; lia.
Qed.

Lemma empty_queues_get (languages : list string) :
  forall (d : list (string * list Sandbox)) l,
    In l languages \/ Dict.get d l = Some [] ->
    Dict.get (fold_left (fun d lang => Dict.set d lang ([] : list Sandbox))
                languages d) l = Some [].
Proof.
  induction languages as [|a languages IH]; intros d l Hl; simpl.
  - destruct Hl as [[]|Hget]. exact Hget.
  - apply IH. destruct (String.eqb_spec a l) as [->|Hne].
    + right. apply get_set_same.
    + destruct Hl as [[Heq|Hin]|Hget]; [contradiction | now left |].
      right. now rewrite get_set_other.
Qed.

(** Start-up (outside any deadline): [initialize_sandbox_pool] never
    raises, whatever the provider refuses; it asks for exactly
    [INITIAL_POOL_SIZE // len(SUPPORTED_LANGUAGES)] sandboxes per listed
    language, so the pool it returns holds at most that many times the
    number of languages, which never exceeds [INITIAL_POOL_SIZE] (the
    remainder of the division is not created); [startup_event] installs
    that pool and touches nothing else of the pool manager. *)
Theorem startup_prewarms_within_budget m :
  polite env -> deadline m = None ->
  let n := per_language (settings env) in
  let languages := SUPPORTED_LANGUAGES (settings env) in
  exists pool m',
    initialize_sandbox_pool env m = (inr pool, m')
    /\ history m'
       = (history m ++ repeat SandboxCreate (n * List.length languages))%list
    /\ (pool_size pool <= n * List.length languages)%nat
    /\ Z.of_nat (n * List.length languages)
       <= Z.max 0 (INITIAL_POOL_SIZE (settings env))
    /\ pool_state m' = pool_state m
    /\ startup_event env m = (inr tt, with_available pool m').
Proof.
  intros Hpolite Hd. cbv zeta. unfold initialize_sandbox_pool, startup_event.
  fold (per_language (settings env)).
  set (start := fold_left _ (SUPPORTED_LANGUAGES (settings env)) []).
  destruct (prewarm_all_spec (per_language (settings env))
              (SUPPORTED_LANGUAGES (settings env)) start m Hpolite Hd)
    as (pool & m' & Hrun & Hh & _ & Hp & Hs & _).
  exists pool, m'. split; [exact Hrun|]. split; [exact Hh|].
  assert (Hstart : pool_size start = 0%nat) by (apply empty_queues_size; reflexivity).
  split; [lia|]. split.
  - unfold per_language.
    set (i := INITIAL_POOL_SIZE (settings env)).
    set (len := List.length (SUPPORTED_LANGUAGES (settings env))).
    destruct len as [|len']; [rewrite Nat.mul_0_r; lia|].
    rewrite Nat2Z.inj_mul.
    pose proof (Z.mul_div_le i (Z.of_nat (S len')) ltac:(lia)) as Hle.
    destruct (Z_lt_le_dec i 0) as [Hneg|Hpos].
    + assert (Hq : i / Z.of_nat (S len') < 0)
        by (apply Z.div_lt_upper_bound; lia).
      set (q := i / Z.of_nat (S len')) in *.
      replace (Z.to_nat q) with 0%nat by lia. lia.
    + assert (Hq : 0 <= i / Z.of_nat (S len')) by (apply Z.div_pos; lia).
      set (q := i / Z.of_nat (S len')) in *.
      rewrite Z2Nat.id by exact Hq. lia.
  - split; [exact Hp|]. unfold bind, initialize_sandbox_pool.
    fold (per_language (settings env)). fold start. rewrite Hrun. reflexivity.
Qed.

(** When the provider never refuses and the configured languages are
    pairwise different, the pool built at start-up gives every language
    the same number of sandboxes,
    [INITIAL_POOL_SIZE // len(SUPPORTED_LANGUAGES)]. *)
Theorem startup_fills_each_language m :
  polite env -> always_creates env -> deadline m = None ->
  NoDup (SUPPORTED_LANGUAGES (settings env)) ->
  exists pool m',
    initialize_sandbox_pool env m = (inr pool, m')
    /\ forall language, In language (SUPPORTED_LANGUAGES (settings env)) ->
         exists q, Dict.get pool language = Some q
                   /\ List.length q = per_language (settings env).
Proof.
  intros Hpolite Hall Hd Hnodup. unfold initialize_sandbox_pool.
  fold (per_language (settings env)).
  set (start := fold_left _ (SUPPORTED_LANGUAGES (settings env)) []).
  destruct (prewarm_all_spec (per_language (settings env))
              (SUPPORTED_LANGUAGES (settings env)) start m Hpolite Hd)
    as (pool & m' & Hrun & _ & _ & _ & _ & _ & Hfill).
  exists pool, m'. split; [exact Hrun|].
  apply (Hfill Hall Hnodup).
  intros l Hin. apply empty_queues_get. now left.
Qed.
End StartupFacts.

Lemma steady_env_always_creates : always_creates Examples.steady_env.
Proof. intro h. eexists. reflexivity. Qed.

Lemma startup_prewarms_within_budget_witness :
  polite Examples.steady_env
  /\ deadline initial_machine = None
  /\ available_sandboxes (snd (startup_event Examples.steady_env initial_machine))
     = [("python", [0%nat]); ("node", [1%nat]); ("bash", [2%nat]); ("c", [3%nat])]
  /\ exists pool m',
       initialize_sandbox_pool Examples.steady_env initial_machine = (inr pool, m')
       /\ (pool_size pool <= 4)%nat.
Proof.
  split; [exact steady_env_polite|]. split; [reflexivity|]. split; [reflexivity|].
  destruct (@startup_prewarms_within_budget Examples.steady_env initial_machine
              steady_env_polite eq_refl)
    as (pool & m' & Hrun & _ & Hsize & _).
  exists pool, m'. split; [exact Hrun | exact Hsize].
Defined.

Lemma startup_fills_each_language_witness :
  NoDup (SUPPORTED_LANGUAGES (settings Examples.steady_env))
  /\ exists pool m',
       initialize_sandbox_pool Examples.steady_env initial_machine = (inr pool, m')
       /\ exists q, Dict.get pool "bash" = Some q /\ List.length q = 1%nat.
Proof.
  assert (Hnodup : NoDup (SUPPORTED_LANGUAGES (settings Examples.steady_env))).
  { simpl. repeat constructor; simpl; intuition discriminate. }
  split; [exact Hnodup|].
  destruct (@startup_fills_each_language Examples.steady_env initial_machine
              steady_env_polite steady_env_always_creates eq_refl Hnodup)
    as (pool & m' & Hrun & Hfill).
  exists pool, m'. split; [exact Hrun|].
  apply (Hfill "bash"). simpl. tauto.
Defined.

Lemma execute_raises_only_503_witness :
  let outcome :=
    execute_code_in_sandbox MoreExamples.no_sandbox_env
      (Examples.request "print(1+1)" "python" 30 (Some "ghost")) initial_machine in
  fst outcome = inl (HTTPException 503 "No sandbox available")
  /\ (HTTPException 503 "No sandbox available"
      = HTTPException 503 "No sandbox available"
      \/ is_Exception (HTTPException 503 "No sandbox available") = false).
Proof.
  split; [reflexivity|].
  apply (@execute_raises_only_503 MoreExamples.no_sandbox_env
           (Examples.request "print(1+1)" "python" 30 (Some "ghost"))
           initial_machine (HTTPException 503 "No sandbox available")
           (snd (execute_code_in_sandbox MoreExamples.no_sandbox_env
                   (Examples.request "print(1+1)" "python" 30 (Some "ghost"))
                   initial_machine))).
  reflexivity.
Defined.

(** ** The deadline of an execution *)

Section DeadlineOfExecution.
Variable env : Env.

(** Once the handler is found, the [try] block is the staging of the
    files followed by the handler awaited under the timeout. *)
Lemma run_handler_awaits request sandbox timeout m h :
  Dict.get _language_handlers (ExecutionRequest.language request) = Some h ->
  run_handler env request sandbox timeout m
  = match stage_files env request sandbox m with
    | (inr _, m2) =>
        wait_for (handler_execute env h sandbox (ExecutionRequest.code request))
          timeout m2
    | (inl e, m2) => (inl e, m2)
    end.
Proof.
  intro Hh. unfold run_handler, get_language_handler, stage_files.
  rewrite Hh. unfold bind at 1. unfold ret at 1. unfold bind at 1.
  destruct (match ExecutionRequest.files request with
            | Some files => _
            | None => ret tt
            end m) as [[e|[]] m2]; reflexivity.
Qed.

Lemma execute_ignores_excess_timeout request m :
  MAX_TIMEOUT (settings env) < ExecutionRequest.timeout request ->
  execute_code_in_sandbox env request m
  = execute_code_in_sandbox env
      (with_timeout (MAX_TIMEOUT (settings env)) request) m.
Proof.
  intro Hlt. destruct request as [eid uid code language t sid files].
  unfold with_timeout, execute_code_in_sandbox, validated_timeout.
  cbn [ExecutionRequest.execution_id ExecutionRequest.user_id
       ExecutionRequest.code ExecutionRequest.language ExecutionRequest.timeout
       ExecutionRequest.session_id ExecutionRequest.files] in *.
  rewrite Z.min_id. rewrite (Z.min_r t) by lia. reflexivity.
Qed.

(** C5, as the code has it.  The timeout under which the handler runs is
    [min(request.timeout, MAX_TIMEOUT)]: a value above [MAX_TIMEOUT] is
    lowered to [MAX_TIMEOUT], any other value is used as it is, so the
    timeout lies in [[1, MAX_TIMEOUT]] whenever the request's is at
    least 1 (and [MAX_TIMEOUT] is).  This is the timeout of the
    execution: once the sandbox is chosen, the language handler found and
    the files staged, [execute_code_in_sandbox] answers from the handler
    awaited under [asyncio.wait_for] with exactly that timeout, in the
    state staging left.  A capped timeout that is zero or negative (a
    request's value below 1 is not raised) therefore times the execution
    out before the handler starts; a positive one arms the deadline that
    many seconds after staging.  And a request asking for more than
    [MAX_TIMEOUT] is served exactly as the same request asking for
    [MAX_TIMEOUT]. *)
Theorem timeout_capped_above request :
  1 <= MAX_TIMEOUT (settings env) ->
  let cap :=
    Z.min (ExecutionRequest.timeout request) (MAX_TIMEOUT (settings env)) in
  (validated_timeout env request = cap
   /\ validated_timeout env request <= MAX_TIMEOUT (settings env)
   /\ (MAX_TIMEOUT (settings env) < ExecutionRequest.timeout request ->
       validated_timeout env request = MAX_TIMEOUT (settings env))
   /\ (ExecutionRequest.timeout request <= MAX_TIMEOUT (settings env) ->
       validated_timeout env request = ExecutionRequest.timeout request)
   /\ (1 <= ExecutionRequest.timeout request ->
       1 <= validated_timeout env request <= MAX_TIMEOUT (settings env)
       /\ validated_timeout env request = spec_clamped_timeout env request))
  /\ (forall m sandbox sandbox_id m1 h m2,
        acquire_sandbox env request m = (inr (sandbox, sandbox_id), m1) ->
        Dict.get _language_handlers (ExecutionRequest.language request) = Some h ->
        stage_files env request sandbox m1 = (inr tt, m2) ->
        let handler :=
          handler_execute env h sandbox (ExecutionRequest.code request) in
        let awaited := wait_for handler cap m2 in
        execute_code_in_sandbox env request m
          = answer_of env request sandbox_id sandbox (fst awaited) (snd awaited)
        /\ (cap <= 0 ->
            awaited = (inl TimeoutError, m2)
            /\ fst (execute_code_in_sandbox env request m)
               = inr (Response.make "" (Some "Execution timed out") (-1) None))
        /\ (0 < cap ->
            let run := handler (with_deadline (Some (clock m2 + cap)) m2) in
            snd awaited = with_deadline (deadline m2) (snd run)
            /\ (forall result, fst run = inr result -> fst awaited = inr result)
            /\ (fst run = inl CancelledError ->
                clock m2 + cap <= clock (snd run) ->
                fst awaited = inl TimeoutError)))
  /\ (forall m,
        MAX_TIMEOUT (settings env) < ExecutionRequest.timeout request ->
        execute_code_in_sandbox env request m
        = execute_code_in_sandbox env
            (with_timeout (MAX_TIMEOUT (settings env)) request) m).
Proof.
  intro Hmax. cbv zeta. split; [|split].
  - unfold validated_timeout, spec_clamped_timeout. repeat split; lia.
  - intros m sandbox sandbox_id m1 h m2 Hacq Hh Hstage.
    assert (Hexec :
      execute_code_in_sandbox env request m
      = answer_of env request sandbox_id sandbox
          (fst (wait_for (handler_execute env h sandbox
                            (ExecutionRequest.code request))
                  (Z.min (ExecutionRequest.timeout request)
                     (MAX_TIMEOUT (settings env))) m2))
          (snd (wait_for (handler_execute env h sandbox
                            (ExecutionRequest.code request))
                  (Z.min (ExecutionRequest.timeout request)
                     (MAX_TIMEOUT (settings env))) m2))).
    { rewrite execute_unfold, Hacq, (run_handler_awaits _ _ _ _ Hh), Hstage.
      unfold validated_timeout.
      destruct (wait_for _ _ m2) as [[e|result] m3]; reflexivity. }
    split; [exact Hexec|]. split.
    + intro Hcap.
      assert (Hnow : wait_for (handler_execute env h sandbox
                                 (ExecutionRequest.code request))
                       (Z.min (ExecutionRequest.timeout request)
                          (MAX_TIMEOUT (settings env))) m2
                     = (inl TimeoutError, m2)).
      { unfold wait_for.
        destruct (Z.leb_spec (Z.min (ExecutionRequest.timeout request)
                                (MAX_TIMEOUT (settings env))) 0);
          [reflexivity | lia]. }
      split; [exact Hnow|]. rewrite Hexec, Hnow. reflexivity.
    + intro Hcap. unfold wait_for.
      destruct (Z.leb_spec (Z.min (ExecutionRequest.timeout request)
                              (MAX_TIMEOUT (settings env))) 0); [lia|].
      destruct (handler_execute env h sandbox (ExecutionRequest.code request)
                  (with_deadline
                     (Some (clock m2
                            + Z.min (ExecutionRequest.timeout request)
                                (MAX_TIMEOUT (settings env)))) m2))
        as [r m3]. simpl fst. simpl snd.
      split; [destruct r as [[]|]; try reflexivity;
              destruct (_ <=? _); reflexivity|].
      split.
      * intros result ->. reflexivity.
      * intros -> Hfired.
        destruct (Z.leb_spec
                    (clock m2 + Z.min (ExecutionRequest.timeout request)
                                  (MAX_TIMEOUT (settings env)))
                    (clock m3)); [reflexivity | lia].
  - intros m. apply execute_ignores_excess_timeout.
Qed.
End DeadlineOfExecution.

Lemma timeout_capped_above_witness :
  let env := DeadlineExamples.long_running_env in
  let request := Examples.request "print(1+1)" "python" 1000 (Some "s1") in
  1 <= MAX_TIMEOUT (settings env)
  /\ latency env [] (ProcessWait 1%nat) = 400
  /\ validated_timeout env request = 300
  /\ fst (execute_code_in_sandbox env request Examples.one_session)
     = inr (Response.make "" (Some "Execution timed out") (-1) None).
Proof.
  split; [simpl; lia|]. split; [reflexivity|].
  destruct (@timeout_capped_above DeadlineExamples.long_running_env
              (Examples.request "print(1+1)" "python" 1000 (Some "s1")))
    as ((_ & _ & Hhigh & _) & Hdeadline & _); [simpl; lia|].
  split; [rewrite Hhigh; [reflexivity | simpl; lia]|].
  destruct (Hdeadline Examples.one_session 0%nat "s1" Examples.one_session
              PythonHandler Examples.one_session eq_refl eq_refl eq_refl)
    as (Hexec & _).
  rewrite Hexec. reflexivity.
Defined.
